(** * The checkers rules engine: [Board] (src/board.py)

    A shallow embedding of the [Board] class: the cell array (a numpy
    integer array), the side to move, the history of made moves, the
    game-status fields, and the methods that read and mutate them.

    Python integers (indices, the [moves_without_kills] counter) are [Z];
    the cells of the numpy array are machine integers, so the one place
    where the code does arithmetic on a cell ([make_king]) wraps around.
    Methods are computations in a state-and-exception monad: a method
    either returns normally or raises an [IndexError], and in both cases
    the (possibly mutated) object is what the caller is left with.  The
    numbers [score] computes with are Python's: integers, and binary64
    floating-point values with their rounding. *)

From Stdlib Require Import Floats.
From Stdlib Require Import ZArith List Bool Lia String Ascii DecimalString.
From stdpp Require Import base list.
From Stdlib Require DecimalPos DecimalZ Sorted.

Local Open Scope Z_scope.

(** ** Python and numpy indexing *)

(** [l[i]] for a Python list or a one-dimensional numpy array of length
    [n]: indices [0 .. n-1] address the elements, [-n .. -1] address them
    from the end, anything else addresses nothing and raises. *)
Definition py_norm (n : nat) (i : Z) : option nat :=
  if (0 <=? i) && (i <? Z.of_nat n) then Some (Z.to_nat i)
  else if (- Z.of_nat n <=? i) && (i <? 0) then Some (Z.to_nat (i + Z.of_nat n))
  else None.

Definition getitem {A : Type} (l : list A) (i : Z) : option A :=
  match py_norm (length l) i with
  | Some n => l !! n
  | None => None
  end.

Definition setitem {A : Type} (l : list A) (i : Z) (x : A) : option (list A) :=
  match py_norm (length l) i with
  | Some n => Some (<[n:=x]> l)
  | None => None
  end.

(** ** The cells: [np.dtype(int)] *)

(** [np.dtype(int)] is the platform's C long: 64 bits on the 64-bit builds
    modelled here.  Arithmetic on a cell wraps around silently. *)
Definition int_bits : Z := 64.
Definition int_min : Z := - 2 ^ (int_bits - 1).
Definition int_max : Z := 2 ^ (int_bits - 1) - 1.

Definition wrap (z : Z) : Z :=
  (z - int_min) mod 2 ^ int_bits + int_min.

Definition in_int_range (z : Z) : bool := (int_min <=? z) && (z <=? int_max).

(** ** Sides (utils.py) *)

(** Modelled from the spec: [PieceTypes] lives in utils.py, which is not
    part of the sources at hand.  A side is one of two values, each carrying
    the list of piece values it owns: positive for blue, negative for red,
    magnitude 1 for a regular piece and 2 for a king. *)
Inductive PieceTypes : Type := BLUE | RED.

Definition value (s : PieceTypes) : list Z :=
  match s with
  | BLUE => [1; 2]
  | RED => [-1; -2]
  end.

Definition side_eqb (s t : PieceTypes) : bool :=
  match s, t with
  | BLUE, BLUE | RED, RED => true
  | _, _ => false
  end.

(** [piece in side.value] *)
Definition piece_in (piece : Z) (s : PieceTypes) : bool :=
  existsb (Z.eqb piece) (value s).

(** ** Moves (move.py) *)

(** Modelled from the spec: the [Move] class lives in move.py, which is not
    part of the sources at hand.  A move is an immutable descriptor: origin,
    destination, the ordered captured (cell, piece) pairs and a promotion
    flag. *)
Module Move.
Record t : Type := mk {
  start : Z;
  end_ : Z;
  kills : list (Z * Z);
  make_king : bool
}.
End Move.

(** ** The board object *)

(** One entry of [__made_moves]:
    [[old_index, new_index, kill_positions, made_king, moves_without_kills]]. *)
Record made_move : Type := MadeMove {
  old_position : Z;
  new_position : Z;
  kill_positions : list (Z * Z);
  made_king : bool;
  saved_moves_without_kills : Z
}.

Record Board : Type := mkBoard {
  board : list Z;                 (* self.__board *)
  current_side : PieceTypes;
  made_moves : list made_move;    (* self.__made_moves, oldest first *)
  is_playing : bool;
  winner : option Z;              (* None | int *)
  moves_without_kills : Z
}.

Definition set_board (c : list Z) (b : Board) : Board :=
  mkBoard c (current_side b) (made_moves b) (is_playing b) (winner b)
          (moves_without_kills b).
Definition set_current_side (s : PieceTypes) (b : Board) : Board :=
  mkBoard (board b) s (made_moves b) (is_playing b) (winner b)
          (moves_without_kills b).
Definition set_made_moves (h : list made_move) (b : Board) : Board :=
  mkBoard (board b) (current_side b) h (is_playing b) (winner b)
          (moves_without_kills b).
Definition set_is_playing (p : bool) (b : Board) : Board :=
  mkBoard (board b) (current_side b) (made_moves b) p (winner b)
          (moves_without_kills b).
Definition set_winner (w : option Z) (b : Board) : Board :=
  mkBoard (board b) (current_side b) (made_moves b) (is_playing b) w
          (moves_without_kills b).
Definition set_moves_without_kills (n : Z) (b : Board) : Board :=
  mkBoard (board b) (current_side b) (made_moves b) (is_playing b) (winner b) n.

(** ** Methods as computations *)

(** The exceptions the methods raise.  They are Python's [IndexError] and
    differ by message and origin, with one proviso:
    [ArrayIndexOutOfBounds] stands for every way numpy has of rejecting an
    index that addresses no cell, which is an [IndexError] for an index
    that fits a machine integer and an [OverflowError] for one that does
    not.  No method catches an exception of the array, and the array is
    untouched in both cases. *)
Inductive IndexError : Type :=
| OccupiedSquare        (* "You cant move a piece to an occupied square" *)
| NonExistentPiece      (* "You cant move a non existent piece!" *)
| KillNonExistentPiece  (* "Cannot kill a non existent piece" *)
| NotAtEdges            (* "Piece can only promote if Reaches the Edges!!" *)
| KingNonExistentPiece  (* "You cant king a non existent piece" *)
| ArrayIndexOutOfBounds (* numpy: the index addresses no cell *)
| ListIndexOutOfRange   (* list index out of range *)
| PopFromEmptyList.     (* pop from empty list *)

(** The result of running a method on an object: a normal return with a
    value, or an exception; either way with the object as the method left
    it. *)
Inductive res (A : Type) : Type :=
| Done (a : A) (b : Board)
| Raised (e : IndexError) (b : Board).
Arguments Done {A} a b.
Arguments Raised {A} e b.

Definition M (A : Type) : Type := Board -> res A.

Definition ret {A : Type} (a : A) : M A := fun b => Done a b.
Definition raise {A : Type} (e : IndexError) : M A := fun b => Raised e b.
Definition bind {A B : Type} (m : M A) (k : A -> M B) : M B :=
  fun b =>
    match m b with
    | Done a b' => k a b'
    | Raised e b' => Raised e b'
    end.

Declare Scope py_scope.
Delimit Scope py_scope with py.
Notation "x <- m ;; k" := (bind m (fun x => k))
  (at level 100, m at next level, right associativity) : py_scope.
Notation "m ;; k" := (bind m (fun _ => k))
  (at level 100, right associativity) : py_scope.
Local Open Scope py_scope.

Definition get : M Board := fun b => Done b b.
Definition modify (f : Board -> Board) : M unit := fun b => Done tt (f b).

(** The object a computation leaves behind, and the value it returns. *)
Definition state_of {A : Type} (r : res A) : Board :=
  match r with Done _ b | Raised _ b => b end.
Definition value_of {A : Type} (r : res A) : option A :=
  match r with Done a _ => Some a | Raised _ _ => None end.

(** [self.__board[index]] *)
Definition read_cell (index : Z) : M Z :=
  fun b =>
    match getitem (board b) index with
    | Some v => Done v b
    | None => Raised ArrayIndexOutOfBounds b
    end.

(** [self.__board[index] = v] *)
Definition write_cell (index : Z) (v : Z) : M unit :=
  fun b =>
    match setitem (board b) index v with
    | Some c => Done tt (set_board c b)
    | None => Raised ArrayIndexOutOfBounds b
    end.

(** [self.__made_moves[-1]], split into the entries below it and the entry. *)
Definition unsnoc {A : Type} (l : list A) : option (list A * A) :=
  match l with
  | [] => None
  | x :: l' => Some (removelast l, List.last l' x)
  end.

Definition top_entry : M (list made_move * made_move) :=
  fun b =>
    match unsnoc (made_moves b) with
    | Some he => Done he b
    | None => Raised ListIndexOutOfRange b
    end.

(** for-loops over a list whose body may raise *)
Fixpoint for_each {A : Type} (body : A -> M unit) (l : list A) : M unit :=
  match l with
  | [] => ret tt
  | x :: l' => body x ;; for_each body l'
  end.

Definition flip_side (s : PieceTypes) : PieceTypes :=
  if side_eqb s BLUE then RED else BLUE.

(** ** Construction *)

(** [__default_arrange_pieces]: red pieces (-1) on rows 0..2 and blue
    pieces (1) on rows 5..7, on alternating columns offset by row parity. *)
Definition arrange_rows (rows : list Z) (piece : Z) (cells : list Z) : list Z :=
  fold_left
    (fun cells i =>
       let is_even := i mod 2 =? 0 in
       fold_left
         (fun cells j =>
            let row := i in
            let column := if is_even then j * 2 + 1 else j * 2 in
            let index := row * 8 + column in
            <[Z.to_nat index := piece]> cells)
         [0; 1; 2; 3] cells)
    rows cells.

Definition default_arrange_pieces : list Z :=
  arrange_rows [5; 6; 7] 1 (arrange_rows [0; 1; 2] (-1) (replicate 64 0)).

(** [Board(board, current_side)].  [np.array(board, dtype=int)] refuses a
    value that does not fit a cell (OverflowError): construction is
    partial. *)
Definition init (layout : option (list Z)) (side : PieceTypes) : option Board :=
  match layout with
  | None => Some (mkBoard default_arrange_pieces side [] true None 0)
  | Some cells =>
      if forallb in_int_range cells
      then Some (mkBoard cells side [] true None 0)
      else None
  end.

Definition reset : M unit :=
  modify (fun _ => mkBoard default_arrange_pieces BLUE [] true None 0).

(** [clear]: empties the board; history and status are not touched. *)
Definition clear : M unit :=
  modify (set_board (replicate 64 0)).

(** ** Read accessors *)

(** [all_pieces]: the (piece, index) pairs of the non-empty cells, by
    increasing index. *)
Definition all_pieces (cells : list Z) : list (Z * Z) :=
  List.filter (fun pi => negb (fst pi =? 0))
              (imap (fun i piece => (piece, Z.of_nat i)) cells).

Definition piece (index : Z) : M Z := read_cell index.

Definition last_move (b : Board) : option made_move :=
  if (0 <? Z.of_nat (length (made_moves b))) then getitem (made_moves b) (-1)
  else None.

(** ** Mutators *)

Definition move (old_index new_index : Z) : M unit :=
  dest <- read_cell new_index ;;
  if negb (dest =? 0) then raise OccupiedSquare else
  origin <- read_cell old_index ;;
  if origin =? 0 then raise NonExistentPiece else
  piece <- read_cell old_index ;;
  write_cell old_index 0 ;;
  write_cell new_index piece ;;
  modify (fun b =>
            set_made_moves
              (made_moves b ++
                 [MadeMove old_index new_index [] false (moves_without_kills b)])
              b) ;;
  modify (fun b => set_moves_without_kills (moves_without_kills b + 1) b) ;;
  modify (fun b => set_current_side (flip_side (current_side b)) b).

Definition kill_piece (index : Z) : M unit :=
  target <- read_cell index ;;
  if target =? 0 then raise KillNonExistentPiece else
  he <- top_entry ;;
  piece <- read_cell index ;;
  let (h, e) := (he : list made_move * made_move) in
  modify (set_made_moves
            (h ++ [MadeMove (old_position e) (new_position e)
                            (kill_positions e ++ [(index, piece)])
                            (made_king e) (saved_moves_without_kills e)])) ;;
  modify (set_moves_without_kills 0) ;;
  write_cell index 0.

(** [index // 8 in [0, 7]] *)
Definition at_edges (index : Z) : bool := (index / 8 =? 0) || (index / 8 =? 7).

Definition make_king (index : Z) : M unit :=
  if negb (at_edges index) then raise NotAtEdges else
  p <- piece index ;;
  if p =? 0 then raise KingNonExistentPiece else
  v <- read_cell index ;;
  write_cell index (wrap (v * 2)) ;;
  he <- top_entry ;;
  let (h, e) := (he : list made_move * made_move) in
  modify (set_made_moves
            (h ++ [MadeMove (old_position e) (new_position e)
                            (kill_positions e) true
                            (saved_moves_without_kills e)])).

Definition pop_made_move : M made_move :=
  fun b =>
    match unsnoc (made_moves b) with
    | Some (h, e) => Done e (set_made_moves h b)
    | None => Raised PopFromEmptyList b
    end.

Definition undo_move : M unit :=
  last_move <- pop_made_move ;;
  (if made_king last_move then
     v <- read_cell (new_position last_move) ;;
     write_cell (new_position last_move) (v / 2)
   else ret tt) ;;
  for_each (fun ip => write_cell (fst ip) (snd ip)) (kill_positions last_move) ;;
  piece <- read_cell (new_position last_move) ;;
  write_cell (new_position last_move) 0 ;;
  write_cell (old_position last_move) piece ;;
  modify (set_moves_without_kills (saved_moves_without_kills last_move)) ;;
  modify (fun b => set_current_side (flip_side (current_side b)) b).

(** ** Draw detection *)

(** [sorted(entry[:2])] *)
Definition sorted_pair (e : made_move) : list Z :=
  [Z.min (old_position e) (new_position e);
   Z.max (old_position e) (new_position e)].

Definition same3 (x y z : list Z) : bool :=
  bool_decide (x = y) && bool_decide (y = z).

(** The repetition test inside the [try]: [None] stands for the
    [IndexError] of a history that is too short. *)
Definition repetition (h : list made_move) : option bool :=
  match getitem h (-2), getitem h (-4), getitem h (-6),
        getitem h (-1), getitem h (-3), getitem h (-5) with
  | Some b0, Some b1, Some b2, Some r0, Some r1, Some r2 =>
      Some (same3 (sorted_pair b0) (sorted_pair b1) (sorted_pair b2)
            && same3 (sorted_pair r0) (sorted_pair r1) (sorted_pair r2))
  | _, _, _, _, _, _ => None
  end.

Definition is_draw : M bool :=
  b <- get ;;
  let is_draw := 40 <=? moves_without_kills b in
  let is_draw :=
    if side_eqb (current_side b) BLUE then
      match repetition (made_moves b) with
      | Some true => true
      | Some false => is_draw
      | None => false
      end
    else is_draw in
  (if is_draw
   then modify (set_winner None) ;; modify (set_is_playing false)
   else ret tt) ;;
  ret is_draw.

(** ** Hash *)

(** [str(n)] for an integer *)
Definition str_int (z : Z) : string := NilZero.string_of_int (Z.to_int z).

(** [str(self.board)]: the list of cells as Python prints it. *)
Definition hash (b : Board) : string :=
  ("[" ++ String.concat ", " (map str_int (board b)) ++ "]")%string.

(** ** Numbers *)

(** The numbers [score] computes with: a Python [int] is a mathematical
    integer, a [float] (as numpy's [float64]) is a binary64 value. *)
Inductive number : Type :=
| PyInt (z : Z)
| PyFloat (f : float).
Coercion PyInt : Z >-> number.

(** [float(z)], the conversion an [int] undergoes when it meets a [float]
    in an operation: the binary64 value nearest to the integer, ties to
    even.  (Python raises [OverflowError] from 2^1024 on; the integers
    [score] converts are a count of cells and twice the sum of machine
    integers, far below that.) *)
Definition float_of_int (z : Z) : float :=
  SF2Prim (SpecFloat.binary_normalize prec emax z 0 false).

Definition to_float (x : number) : float :=
  match x with
  | PyInt z => float_of_int z
  | PyFloat f => f
  end.

(** [x + y], [x - y], [x * y]: exact on two integers, binary64 with one
    rounding as soon as an operand is a float. *)
Definition num_add (x y : number) : number :=
  match x, y with
  | PyInt a, PyInt b => PyInt (a + b)
  | _, _ => PyFloat (to_float x + to_float y)
  end.

Definition num_sub (x y : number) : number :=
  match x, y with
  | PyInt a, PyInt b => PyInt (a - b)
  | _, _ => PyFloat (to_float x - to_float y)
  end.

Definition num_mul (x y : number) : number :=
  match x, y with
  | PyInt a, PyInt b => PyInt (a * b)
  | _, _ => PyFloat (to_float x * to_float y)
  end.

(** The integer [z] against the mathematical value of the float [f]:
    Python compares an [int] with a [float] exactly, without rounding the
    integer.  A comparison with NaN is false. *)
Definition int_compare_float (z : Z) (f : float) : option comparison :=
  match Prim2SF f with
  | S754_zero _ => Some (z ?= 0)
  | S754_infinity s => Some (if s then Gt else Lt)
  | S754_nan => None
  | S754_finite s m e =>
      let v := if s then Z.neg m else Z.pos m in
      Some (if 0 <=? e then z ?= v * 2 ^ e else z * 2 ^ (- e) ?= v)
  end.

(** [x < y] *)
Definition num_ltb (x y : number) : bool :=
  match x, y with
  | PyInt a, PyInt b => a <? b
  | PyInt a, PyFloat g =>
      match int_compare_float a g with Some Lt => true | _ => false end
  | PyFloat f, PyInt b =>
      match int_compare_float b f with Some Gt => true | _ => false end
  | PyFloat f, PyFloat g => (f <? g)%float
  end.

(** [min(x, y)]: the first argument, unless the second is smaller. *)
Definition num_min (x y : number) : number :=
  if num_ltb y x then y else x.

Declare Scope num_scope.
Delimit Scope num_scope with num.
Bind Scope num_scope with number.
Infix "+" := num_add : num_scope.
Infix "-" := num_sub : num_scope.
Infix "*" := num_mul : num_scope.

(** ** Scores *)

(** What [score] returns: [inf], [-inf], or the number it computed (the
    heuristic stays finite: see [float_of_int]). *)
Inductive score_value : Type :=
| NegInf
| Num (x : number)
| PosInf.

(** The helper inside [score].  [1 / 12], the quotient of two integers, is
    the binary64 value nearest to one twelfth. *)
Definition endgame_weight (materials : Z) : number :=
  let multiplier := PyFloat (1 / 12) in
  (1 - num_min 1 (materials * multiplier))%num.

(** [opponent] as [score] computes it *)
Definition opponent_of (s : PieceTypes) : PieceTypes :=
  if side_eqb s BLUE then RED else BLUE.

(** [np.where(self.__board > 0 if opponent == RED else self.__board < 0)[0].size] *)
Definition no_of_pieces (b : Board) : Z :=
  let opponent := opponent_of (current_side b) in
  Z.of_nat
    (length
       (List.filter
          (fun cell => if side_eqb opponent RED then 0 <? cell else cell <? 0)
          (board b))).

(** [sum(self.board)] *)
Definition sum (cells : list Z) : Z := fold_left Z.add cells 0.

(** ** State update and evaluation *)

Section Evaluation.

(** [generate_sliding_moves] and [generate_attacking_moves] live in
    move.py, which is not part of the sources at hand: they are parameters
    of what follows.  Per the spec they are pure functions of a piece
    value, its cell and a snapshot of the cells ([self.board] hands them a
    fresh list), and return the simple moves and the capture sequences of
    that piece. *)
Variable generate_sliding_moves : Z -> Z -> list Z -> list Move.t.
Variable generate_attacking_moves : Z -> Z -> list Z -> list Move.t.

(** The [for ... else] loop of [update_state]: [true] when the loop
    leaves through [break]. *)
Fixpoint finds_a_move (side : PieceTypes) (cells : list Z)
         (pieces : list (Z * Z)) : bool :=
  match pieces with
  | [] => false
  | (piece, start) :: rest =>
      if piece_in piece side then
        let piece_attack_moves := generate_attacking_moves piece start cells in
        let piece_sliding_moves := generate_sliding_moves piece start cells in
        if (0 <? length (piece_attack_moves ++ piece_sliding_moves))%nat
        then true
        else finds_a_move side cells rest
      else finds_a_move side cells rest
  end.

Definition update_state : M unit :=
  is_draw <- is_draw ;;
  if (is_draw : bool) then ret tt else
  b <- get ;;
  let pieces := all_pieces (board b) in
  let cells := board b in
  if finds_a_move (current_side b) cells pieces then ret tt
  else
    modify (set_winner (Some (List.nth 0 (value (current_side b)) 0 * -1))) ;;
    modify (set_is_playing false).

(** The inner loop of [score] over the moves of one piece. *)
Definition moves_score (all_moves : list Move.t) : Z :=
  fold_left
    (fun piece_score m =>
       let piece_score := piece_score + 3 * Z.of_nat (length (Move.kills m)) in
       let piece_score := piece_score + 2 in
       if Move.make_king m then piece_score + 5 else piece_score)
    all_moves 0.

(** The body of the loop of [score] over the pieces, up to the update of
    [score]: what one piece contributes. *)
Definition piece_score (weight : number) (cells : list Z) (piece start : Z)
  : number :=
  let all_moves := generate_sliding_moves piece start cells
                   ++ generate_attacking_moves piece start cells in
  let piece_score := moves_score all_moves in
  let file := start mod 8 in
  let rank := start / 8 in
  let dist_from_center :=
    (PyInt (Z.max (3 - file) (file - 4) + Z.max (3 - rank) (rank - 4))
     * PyFloat 0.5 * weight)%num in
  (PyInt piece_score - dist_from_center)%num.

(** The value [score] returns while the game goes on, for a given weight. *)
Definition heuristic (weight : number) (b : Board) : number :=
  let score := (PyInt (sum (board b)) * PyInt 2 * weight)%num in
  let score :=
    fold_left
      (fun score ps =>
         let '(piece, start) := (ps : Z * Z) in
         let piece_score := piece_score weight (board b) piece start in
         if piece_in piece BLUE then (score + piece_score)%num
         else (score - piece_score)%num)
      (all_pieces (board b)) score in
  if side_eqb (current_side b) RED then (score * PyInt (-1))%num else score.

Definition score : M score_value :=
  update_state ;;
  b <- get ;;
  let opponent := opponent_of (current_side b) in
  if negb (is_playing b) then
    match winner b with
    | Some w =>
        if piece_in w opponent then ret NegInf
        else ret PosInf
    | None => ret (Num 0)
    end
  else
    let no_of_pieces := no_of_pieces b in
    let weight := endgame_weight no_of_pieces in
    ret (Num (heuristic weight b)).

End Evaluation.

(** * Vocabulary of the properties *)

(** ** What the methods leave behind *)

(** The object after a successful [move] of the piece [p] from the cell
    at position [ko] to the cell at position [kn]. *)
Definition moved (b : Board) (old_index new_index : Z) (ko kn : nat) (p : Z) : Board :=
  mkBoard (<[kn:=p]> (<[ko:=0]> (board b)))
          (flip_side (current_side b))
          (made_moves b ++
             [MadeMove old_index new_index [] false (moves_without_kills b)])
          (is_playing b) (winner b) (moves_without_kills b + 1).

(** A history entry with more captures logged on it. *)
Definition add_kills (e : made_move) (log : list (Z * Z)) : made_move :=
  MadeMove (old_position e) (new_position e) (kill_positions e ++ log)
           (made_king e) (saved_moves_without_kills e).

(** The object after a successful [kill_piece] of the piece [p] at
    position [k], the history being [h] followed by the entry [e]. *)
Definition killed (b : Board) (index : Z) (k : nat) (p : Z)
           (h : list made_move) (e : made_move) : Board :=
  mkBoard (<[k:=0]> (board b)) (current_side b)
          (h ++ [add_kills e [(index, p)]])
          (is_playing b) (winner b) 0.

(** A history entry with its promotion flag set. *)
Definition crowned (e : made_move) : made_move :=
  MadeMove (old_position e) (new_position e) (kill_positions e) true
           (saved_moves_without_kills e).

(** The flag [is_draw] returns. *)
Definition draws (b : Board) : bool :=
  let is_draw := 40 <=? moves_without_kills b in
  if side_eqb (current_side b) BLUE then
    match repetition (made_moves b) with
    | Some true => true
    | Some false => is_draw
    | None => false
    end
  else is_draw.

(** The object after [is_draw] has found a draw. *)
Definition drawn (b : Board) : Board := set_is_playing false (set_winner None b).

(** The object after [update_state] has found no move for the side to
    move. *)
Definition lost (b : Board) : Board :=
  set_is_playing false
    (set_winner (Some (List.nth 0 (value (current_side b)) 0 * -1)) b).

(** What [score] returns once the game is over. *)
Definition terminal_value (b : Board) : score_value :=
  match winner b with
  | Some w =>
      if piece_in w (opponent_of (current_side b)) then NegInf else PosInf
  | None => Num 0
  end.

(** ** Compound turns *)

(** Modelled from the spec: [Move.play] lives in move.py, which is not
    part of the sources at hand.  It calls [move], then [kill_piece] for
    each captured cell in order, then [make_king] on the destination if the
    move promotes. *)
Definition play (m : Move.t) : M unit :=
  move (Move.start m) (Move.end_ m) ;;
  for_each kill_piece (map fst (Move.kills m)) ;;
  if Move.make_king m then make_king (Move.end_ m) else ret tt.

(** A run of [move] calls, one per (origin, destination) pair. *)
Definition play_moves (calls : list (Z * Z)) : M unit :=
  for_each (fun call => move (fst call) (snd call)) calls.

(** The cells after a run of kills, against the cells before it and the
    captures the run logged: every cell is as before or empty, every
    logged capture carries the piece that stood there, and every cell that
    changed is logged. *)
Record kills_logged (before after : list Z) (log : list (Z * Z)) : Prop := {
  kl_length : length after = length before;
  kl_cells : forall j, after !! j = before !! j \/ after !! j = Some 0;
  kl_log : forall c p, In (c, p) log ->
           p <> 0 /\
           exists k, py_norm (length before) c = Some k /\ before !! k = Some p;
  kl_changed : forall j, after !! j <> before !! j ->
               exists c p, In (c, p) log /\ py_norm (length before) c = Some j
}.

(** ** Ownership, mobility and material *)

(** The side [s] owns the piece [p] standing at position [i]: the test
    [piece in side.value] of the code. *)
Definition owns (s : PieceTypes) (cells : list Z) (i : nat) (p : Z) : Prop :=
  cells !! i = Some p /\ piece_in p s = true.

(** A piece of value [p] on cell [start] has a simple or a capture move. *)
Definition can_move
           (generate_sliding_moves generate_attacking_moves :
              Z -> Z -> list Z -> list Move.t)
           (cells : list Z) (p start : Z) : Prop :=
  generate_sliding_moves p start cells <> [] \/
  generate_attacking_moves p start cells <> [].

(** The number of cells holding a piece of the side to move, by sign:
    positive for blue, negative for red. *)
Definition mover_material (b : Board) : Z :=
  Z.of_nat
    (length
       (List.filter
          (fun cell => match current_side b with
                       | BLUE => 0 <? cell
                       | RED => cell <? 0
                       end)
          (board b))).

(** The number of cells holding a piece of the opponent of the side to
    move. *)
Definition opponent_material (b : Board) : Z :=
  Z.of_nat
    (length
       (List.filter (fun cell => piece_in cell (opponent_of (current_side b)))
                    (board b))).

(** The end-game weight as the specification words it, [1 - min(1, n /
    12)], in Python's arithmetic: the quotient of two integers that
    binary64 holds exactly is the binary64 value nearest to it. *)
Definition claimed_weight (n : Z) : number :=
  (1 - num_min 1 (PyFloat (float_of_int n / 12)))%num.

(** [x <= y], compared as Python compares numbers. *)
Definition num_leb (x y : number) : bool :=
  match x, y with
  | PyInt a, PyInt b => a <=? b
  | PyInt a, PyFloat g =>
      match int_compare_float a g with
      | Some Lt | Some Eq => true
      | _ => false
      end
  | PyFloat f, PyInt b =>
      match int_compare_float b f with
      | Some Gt | Some Eq => true
      | _ => false
      end
  | PyFloat f, PyFloat g => (f <=? g)%float
  end.

(** The number is the integer 0. *)
Definition number_is_zero (x : number) : bool :=
  match x with
  | PyInt z => z =? 0
  | PyFloat _ => false
  end.

(** The counts of pieces a board of at most 64 cells can have. *)
Definition counts : list Z := map Z.of_nat (seq 0 65).

(** The end-game weight computed from the opponent's material. *)
Definition opponent_weight (b : Board) : number :=
  claimed_weight (opponent_material b).

(** ** Invariants *)

(** A triple for computations that may raise: from a state satisfying
    [P], a normal return satisfies [Q] and an exception leaves a state
    satisfying [E]. *)
Definition triple {A : Type} (P : Board -> Prop) (m : M A)
           (Q : A -> Board -> Prop) (E : Board -> Prop) : Prop :=
  forall b, P b ->
            match m b with
            | Done a b' => Q a b'
            | Raised _ b' => E b'
            end.

(** A property of the object that does not look at the cells. *)
Definition cell_blind (P : Board -> Prop) : Prop :=
  forall b cells, P b -> P (set_board cells b).

(** The invariant: the counter, and every counter saved in the history,
    is at least zero. *)
Definition counters_nonneg (b : Board) : Prop :=
  0 <= moves_without_kills b /\
  Forall (fun e => 0 <= saved_moves_without_kills e) (made_moves b).

(** The boards the class produces: what the constructor builds, and what
    any method leaves behind, whether it returns normally or raises. *)
Inductive reachable
          (generate_sliding_moves generate_attacking_moves :
             Z -> Z -> list Z -> list Move.t) : Board -> Prop :=
| reach_init layout side b :
    init layout side = Some b ->
    reachable generate_sliding_moves generate_attacking_moves b
| reach_reset b :
    reachable generate_sliding_moves generate_attacking_moves b ->
    reachable generate_sliding_moves generate_attacking_moves
              (state_of (reset b))
| reach_clear b :
    reachable generate_sliding_moves generate_attacking_moves b ->
    reachable generate_sliding_moves generate_attacking_moves
              (state_of (clear b))
| reach_move b old_index new_index :
    reachable generate_sliding_moves generate_attacking_moves b ->
    reachable generate_sliding_moves generate_attacking_moves
              (state_of (move old_index new_index b))
| reach_kill_piece b index :
    reachable generate_sliding_moves generate_attacking_moves b ->
    reachable generate_sliding_moves generate_attacking_moves
              (state_of (kill_piece index b))
| reach_make_king b index :
    reachable generate_sliding_moves generate_attacking_moves b ->
    reachable generate_sliding_moves generate_attacking_moves
              (state_of (make_king index b))
| reach_undo_move b :
    reachable generate_sliding_moves generate_attacking_moves b ->
    reachable generate_sliding_moves generate_attacking_moves
              (state_of (undo_move b))
| reach_is_draw b :
    reachable generate_sliding_moves generate_attacking_moves b ->
    reachable generate_sliding_moves generate_attacking_moves
              (state_of (is_draw b))
| reach_update_state b :
    reachable generate_sliding_moves generate_attacking_moves b ->
    reachable generate_sliding_moves generate_attacking_moves
              (state_of (update_state generate_sliding_moves
                                      generate_attacking_moves b))
| reach_score b :
    reachable generate_sliding_moves generate_attacking_moves b ->
    reachable generate_sliding_moves generate_attacking_moves
              (state_of (score generate_sliding_moves
                               generate_attacking_moves b)).

(** ** Concrete positions *)

(** Two stand-ins for the move generators: one that finds no move for any
    piece, and one that finds a single diagonal step for every piece. *)
Definition no_moves : Z -> Z -> list Z -> list Move.t := fun _ _ _ => [].
Definition one_step : Z -> Z -> list Z -> list Move.t :=
  fun piece start _ => [Move.mk start (start - 9 * Z.sgn piece) [] false].

(** A board straight from the constructor, in the default layout. *)
Definition initial_board : Board :=
  mkBoard default_arrange_pieces BLUE [] true None 0.

(** A blue piece on cell 17 jumps over the red piece on cell 10, lands on
    cell 3 in the top row and is crowned. *)
Definition capture_board : Board :=
  mkBoard (<[17%nat:=1]> (<[10%nat:=-1]> (replicate 64 0))) BLUE [] true None 7.

Definition capture_and_crown : Move.t := Move.mk 17 3 [(10, -1)] true.

(** A piece so large that doubling it leaves the range of a cell. *)
Definition huge_piece_board : Board :=
  mkBoard (<[8%nat:=2 ^ 62]> (replicate 64 0)) BLUE [] true None 0.

Definition crown_huge_piece : Move.t := Move.mk 8 1 [] true.

(** The board after [move 8 1]: the piece stands on the top row and the
    history holds the entry of the move. *)
Definition reached_top_row : Board :=
  mkBoard (<[1%nat:=1]> (replicate 64 0)) RED [MadeMove 8 1 [] false 0]
          true None 1.

(** A lone piece shuffling between cells 0 and 1, forty times. *)
Definition lone_piece : Board :=
  mkBoard (<[0%nat:=1]> (replicate 64 0)) BLUE [] true None 0.

Definition shuffle : list (Z * Z) :=
  List.concat (repeat [(0, 1); (1, 0)] 20).

(** A blue piece on cell 9 steps to the top row; red, now to move, owns no
    piece, so [update_state] records blue as the winner; the move is then
    taken back, which leaves the status fields as they are. *)
Definition won_position : Board :=
  state_of
    (undo_move
       (state_of
          (update_state one_step no_moves
             (state_of
                (move 9 0
                   (mkBoard (<[9%nat:=1]> (replicate 64 0)) BLUE [] true
                            None 0)))))).

(** One blue piece against two red pieces, blue to move. *)
Definition outnumbered : Board :=
  mkBoard (<[42%nat:=1]> (<[3%nat:=-1]> (<[1%nat:=-1]> (replicate 64 0))))
          BLUE [] true None 0.

(** ** Boards of 64 cells *)

(** An index that addresses a cell of an array of [n] cells. *)
Definition in_bounds (n : nat) (i : Z) : Prop :=
  - Z.of_nat n <= i < Z.of_nat n.

(** A history entry all of whose cell indices address a cell. *)
Definition entry_in_bounds (n : nat) (e : made_move) : Prop :=
  in_bounds n (old_position e) /\
  in_bounds n (new_position e) /\
  Forall (fun ip => in_bounds n (fst ip)) (kill_positions e).

(** A board of 64 cells whose history only mentions cells of the board. *)
Definition standard (b : Board) : Prop :=
  length (board b) = 64%nat /\
  Forall (entry_in_bounds 64) (made_moves b).

(** A property of the object that looks at the cells only through their
    number. *)
Definition length_blind (P : Board -> Prop) : Prop :=
  forall b cells, length cells = length (board b) -> P b -> P (set_board cells b).

(** A property of the object that looks at [is_playing] and [winner]
    only. *)
Definition status_only (P : Board -> Prop) : Prop :=
  forall b cells side history counter,
    P b -> P (mkBoard cells side history (is_playing b) (winner b) counter).

(** ** Reading a hash *)

(** A character that the printed list uses between or after its numbers. *)
Definition separator (c : ascii) : Prop := c = ","%char \/ c = "]"%char.

(** A string none of whose characters is a separator. *)
Fixpoint separator_free (s : string) : Prop :=
  match s with
  | EmptyString => True
  | String c s' => ~ separator c /\ separator_free s'
  end.

(** A string that starts with a separator. *)
Definition separated (s : string) : Prop :=
  match s with
  | EmptyString => False
  | String c _ => separator c
  end.

(** What follows the first number of a printed list. *)
Definition printed_rest (l : list Z) : string :=
  match l with
  | [] => "]"
  | _ :: _ => (", " ++ String.concat ", " (map str_int l) ++ "]")%string
  end.

(** The number of non-empty cells. *)
Definition occupied (cells : list Z) : nat :=
  length (List.filter (fun cell => negb (cell =? 0)) cells).

(** * The game: [Game] (src/game.py) *)

(** The attributes [Game]'s methods use: the board and the list of the
    moves that can be played on it. *)
Record Game : Type := mkGame {
  game_board : Board;
  moves : list Move.t
}.

(** [Exception(f"Move not Present with start and end: {(start, end)}")] *)
Inductive MoveNotPresent : Type :=
| move_not_present (start end_ : Z).

(** The loop of [find_move_index], from position [i] of the enumeration. *)
Fixpoint find_move_index_from (i : Z) (candidates : list Move.t)
         (start end_ : Z) : Z + MoveNotPresent :=
  match candidates with
  | [] => inr (move_not_present start end_)
  | move :: rest =>
      if (Move.start move =? start) && (Move.end_ move =? end_)
      then inl i
      else find_move_index_from (i + 1) rest start end_
  end.

Definition find_move_index (g : Game) (start end_ : Z) : Z + MoveNotPresent :=
  find_move_index_from 0 (moves g) start end_.

(** The result of running a method of [Game]. *)
Inductive game_res : Type :=
| GameDone (g : Game)
| GameRaised (e : IndexError) (g : Game).

Section PlayMove.

(** [generate_moves] lives in move.py, which is not part of the sources at
    hand: it is a parameter, a function of the board. *)
Variable generate_moves : Board -> list Move.t.

(** [play_move]: [self.moves[index]], then [move.play(self.board)], then
    [reset_correct_moves], which regenerates the list from the board. *)
Definition play_move (index : Z) (g : Game) : game_res :=
  match getitem (moves g) index with
  | None => GameRaised ListIndexOutOfRange g
  | Some move =>
      match play move (game_board g) with
      | Done _ b' => GameDone (mkGame b' (generate_moves b'))
      | Raised e b' => GameRaised e (mkGame b' (moves g))
      end
  end.

End PlayMove.

(** * Properties *)

(** ** The model at work *)

Example default_layout :
  default_arrange_pieces =
  [ 0; -1;  0; -1;  0; -1;  0; -1;
   -1;  0; -1;  0; -1;  0; -1;  0;
    0; -1;  0; -1;  0; -1;  0; -1;
    0;  0;  0;  0;  0;  0;  0;  0;
    0;  0;  0;  0;  0;  0;  0;  0;
    1;  0;  1;  0;  1;  0;  1;  0;
    0;  1;  0;  1;  0;  1;  0;  1;
    1;  0;  1;  0;  1;  0;  1;  0].
Proof. reflexivity. Qed.

Example indexing :
  getitem [10; 20; 30] 0 = Some 10 /\
  getitem [10; 20; 30] (-1) = Some 30 /\
  getitem [10; 20; 30] (-3) = Some 10 /\
  getitem [10; 20; 30] 3 = None /\
  getitem [10; 20; 30] (-4) = None /\
  setitem [10; 20; 30] (-2) 7 = Some [10; 7; 30].
Proof. repeat split. Qed.

Example wrapping :
  wrap 2 = 2 /\ wrap (-4) = -4 /\
  wrap (2 ^ 63) = - 2 ^ 63 /\ wrap (- 2 ^ 63 - 1) = 2 ^ 63 - 1.
Proof. repeat split. Qed.

Example hash_of_cells :
  hash (mkBoard [0; -1; 2; -2; 1] RED [] true None 0) = "[0, -1, 2, -2, 1]"%string.
Proof. reflexivity. Qed.

Example opening_move :
  move 40 33 initial_board
  = Done tt (mkBoard (<[33%nat:=1]> (<[40%nat:=0]> default_arrange_pieces))
                     RED [MadeMove 40 33 [] false 0] true None 1).
Proof. reflexivity. Qed.

Example short_history_is_no_draw :
  is_draw (mkBoard default_arrange_pieces BLUE [] true None 40)
  = Done false (mkBoard default_arrange_pieces BLUE [] true None 40) /\
  is_draw (mkBoard default_arrange_pieces RED [] true None 40)
  = Done true (mkBoard default_arrange_pieces RED [] false None 40).
Proof. split; reflexivity. Qed.

(** ** Indexing *)

Lemma py_norm_lt (n : nat) (i : Z) (k : nat) :
  py_norm n i = Some k -> (k < n)%nat.
Proof.
  unfold py_norm. intros H.
  destruct ((0 <=? i) && (i <? Z.of_nat n)) eqn:E1.
  - apply andb_prop in E1 as [? ?]. inversion H; subst. lia.
  - destruct ((- Z.of_nat n <=? i) && (i <? 0)) eqn:E2; [|discriminate].
    apply andb_prop in E2 as [? ?]. inversion H; subst. lia.
Qed.

Lemma py_norm_nonneg (n : nat) (i : Z) :
  0 <= i < Z.of_nat n -> py_norm n i = Some (Z.to_nat i).
Proof.
  intros [H1 H2]. unfold py_norm.
  apply Z.leb_le in H1. apply Z.ltb_lt in H2. now rewrite H1, H2.
Qed.

Lemma getitem_Some {A : Type} (l : list A) (i : Z) (x : A) :
  getitem l i = Some x <->
  exists k, py_norm (length l) i = Some k /\ l !! k = Some x.
Proof.
  unfold getitem. destruct (py_norm (length l) i) as [k|]; split.
  - intros H. now exists k.
  - intros (k' & Hk & Hx). now inversion Hk; subst.
  - discriminate.
  - intros (k' & Hk & _). discriminate.
Qed.

Lemma setitem_Some {A : Type} (l : list A) (i : Z) (x : A) (k : nat) :
  py_norm (length l) i = Some k -> setitem l i x = Some (<[k:=x]> l).
Proof. unfold setitem. now intros ->. Qed.

Lemma unsnoc_snoc {A : Type} (h : list A) (e : A) :
  unsnoc (h ++ [e]) = Some (h, e).
Proof.
  unfold unsnoc. destruct (h ++ [e]) as [|x l'] eqn:E.
  - now destruct h.
  - rewrite <- E, removelast_last. f_equal. f_equal.
    destruct h as [|y h']; simpl in E; inversion E; subst; [reflexivity|].
    apply last_last.
Qed.

Lemma unsnoc_Some {A : Type} (l h : list A) (e : A) :
  unsnoc l = Some (h, e) -> l = h ++ [e].
Proof.
  unfold unsnoc. destruct l as [|x l']; [discriminate|].
  intros H. inversion H; subst.
  assert (Hlast : List.last (x :: l') x = List.last l' x) by now destruct l'.
  rewrite <- Hlast. now apply app_removelast_last.
Qed.

Lemma unsnoc_None {A : Type} (l : list A) : unsnoc l = None -> l = [].
Proof. now destruct l. Qed.

Lemma flip_side_involutive (s : PieceTypes) : flip_side (flip_side s) = s.
Proof. now destruct s. Qed.

(** ** Running the primitives *)

Lemma read_cell_Done (index : Z) (b : Board) (k : nat) (v : Z) :
  py_norm (length (board b)) index = Some k ->
  board b !! k = Some v ->
  read_cell index b = Done v b.
Proof.
  intros Hk Hv. unfold read_cell, getitem. now rewrite Hk, Hv.
Qed.

Lemma write_cell_Done (index : Z) (v : Z) (b : Board) (k : nat) :
  py_norm (length (board b)) index = Some k ->
  write_cell index v b = Done tt (set_board (<[k:=v]> (board b)) b).
Proof.
  intros Hk. unfold write_cell. now rewrite (setitem_Some _ _ _ k).
Qed.

Lemma read_cell_inv (index : Z) (b : Board) (r : res Z) :
  read_cell index b = r ->
  (exists k v, py_norm (length (board b)) index = Some k /\
               board b !! k = Some v /\ r = Done v b) \/
  (getitem (board b) index = None /\ r = Raised ArrayIndexOutOfBounds b).
Proof.
  unfold read_cell. intros <-.
  destruct (getitem (board b) index) as [v|] eqn:E.
  - left. apply getitem_Some in E as (k & Hk & Hv). now exists k, v.
  - now right.
Qed.

Lemma bind_Done {A B : Type} (m : M A) (k : A -> M B) (b b' : Board) (a : A) :
  m b = Done a b' -> bind m k b = k a b'.
Proof. unfold bind. now intros ->. Qed.

Lemma bind_Raised {A B : Type} (m : M A) (k : A -> M B) (b b' : Board)
      (e : IndexError) :
  m b = Raised e b' -> bind m k b = Raised e b'.
Proof. unfold bind. now intros ->. Qed.

Lemma bind_Done_inv {A B : Type} (m : M A) (k : A -> M B) (b b2 : Board) (y : B) :
  bind m k b = Done y b2 ->
  exists a b1, m b = Done a b1 /\ k a b1 = Done y b2.
Proof.
  unfold bind. destruct (m b) as [a b1|e b1]; [|discriminate].
  intros H. now exists a, b1.
Qed.

Lemma top_entry_snoc (b : Board) (h : list made_move) (e : made_move) :
  made_moves b = h ++ [e] -> top_entry b = Done (h, e) b.
Proof. intros H. unfold top_entry. now rewrite H, unsnoc_snoc. Qed.

Tactic Notation "run_with" constr(H) :=
  rewrite (bind_Done _ _ _ _ _ H); cbv beta.
Tactic Notation "run_with" constr(H) "in" hyp(H') :=
  rewrite (bind_Done _ _ _ _ _ H) in H'; cbv beta in H'.

Lemma move_run (b : Board) (old_index new_index : Z) (ko kn : nat) (p : Z) :
  py_norm (length (board b)) new_index = Some kn ->
  py_norm (length (board b)) old_index = Some ko ->
  board b !! kn = Some 0 ->
  board b !! ko = Some p ->
  p <> 0 ->
  move old_index new_index b = Done tt (moved b old_index new_index ko kn p).
Proof.
  intros Hkn Hko Hn Ho Hp. unfold move.
  run_with (read_cell_Done _ _ _ _ Hkn Hn). rewrite Z.eqb_refl. cbv beta iota delta [negb].
  run_with (read_cell_Done _ _ _ _ Hko Ho).
  apply Z.eqb_neq in Hp. rewrite Hp.
  run_with (read_cell_Done _ _ _ _ Hko Ho).
  run_with (write_cell_Done _ 0 _ _ Hko).
  erewrite bind_Done; cycle 1.
  { apply write_cell_Done. simpl. rewrite length_insert. exact Hkn. }
  reflexivity.
Qed.

Lemma move_Done_inv (b b' : Board) (old_index new_index : Z) :
  move old_index new_index b = Done tt b' ->
  exists ko kn p,
    py_norm (length (board b)) new_index = Some kn /\
    py_norm (length (board b)) old_index = Some ko /\
    board b !! kn = Some 0 /\
    board b !! ko = Some p /\
    p <> 0 /\
    b' = moved b old_index new_index ko kn p.
Proof.
  intros H.
  destruct (read_cell new_index b) as [d b1|e b1] eqn:Hd.
  2:{ unfold move in H. rewrite (bind_Raised _ _ _ _ _ Hd) in H. discriminate. }
  apply read_cell_inv in Hd as [(kn & v & Hkn & Hv & E)|[_ E]]; [|discriminate].
  inversion E; subst d b1; clear E.
  destruct (Z.eqb_spec v 0) as [->|Hne].
  2:{ unfold move in H. run_with (read_cell_Done _ _ _ _ Hkn Hv) in H.
      apply Z.eqb_neq in Hne. rewrite Hne in H. discriminate. }
  destruct (read_cell old_index b) as [o b1|e b1] eqn:Ho.
  2:{ unfold move in H. run_with (read_cell_Done _ _ _ _ Hkn Hv) in H.
      rewrite Z.eqb_refl in H. cbv beta iota delta [negb] in H.
      rewrite (bind_Raised _ _ _ _ _ Ho) in H. discriminate. }
  apply read_cell_inv in Ho as [(ko & p & Hko & Hp & E)|[_ E]]; [|discriminate].
  inversion E; subst o b1; clear E.
  destruct (Z.eqb_spec p 0) as [->|Hp0].
  { unfold move in H. run_with (read_cell_Done _ _ _ _ Hkn Hv) in H.
    rewrite Z.eqb_refl in H. cbv beta iota delta [negb] in H.
    run_with (read_cell_Done _ _ _ _ Hko Hp) in H. discriminate. }
  exists ko, kn, p. repeat split; try assumption.
  rewrite (move_run b old_index new_index ko kn p) in H by assumption.
  now inversion H.
Qed.

(** ** [move] *)

(** C2: [move old_index new_index] raises the occupied-square error when
    the destination cell is not empty, raises the non-existent-piece error
    when (the destination being empty) the origin cell is empty, and in
    both cases leaves the whole object as it was; otherwise it empties the
    origin cell, puts the piece on the destination cell, appends the entry
    [[old_index, new_index, [], False, moves_without_kills]] to the
    history, adds one to [moves_without_kills] and flips the side to move. *)
Theorem move_raises_or_relocates (b : Board) (old_index new_index : Z) :
  (forall d,
      getitem (board b) new_index = Some d -> d <> 0 ->
      move old_index new_index b = Raised OccupiedSquare b) /\
  (getitem (board b) new_index = Some 0 ->
   getitem (board b) old_index = Some 0 ->
   move old_index new_index b = Raised NonExistentPiece b) /\
  (forall p,
      getitem (board b) new_index = Some 0 ->
      getitem (board b) old_index = Some p -> p <> 0 ->
      exists cells1 cells2,
        setitem (board b) old_index 0 = Some cells1 /\
        setitem cells1 new_index p = Some cells2 /\
        move old_index new_index b =
        Done tt
          (mkBoard cells2
                   (flip_side (current_side b))
                   (made_moves b ++
                      [MadeMove old_index new_index [] false
                                (moves_without_kills b)])
                   (is_playing b) (winner b)
                   (moves_without_kills b + 1))).
Proof.
  split; [|split].
  - intros d Hd Hne. apply getitem_Some in Hd as (kn & Hkn & Hv).
    unfold move. run_with (read_cell_Done _ _ _ _ Hkn Hv).
    apply Z.eqb_neq in Hne. now rewrite Hne.
  - intros Hn Ho.
    apply getitem_Some in Hn as (kn & Hkn & Hn).
    apply getitem_Some in Ho as (ko & Hko & Ho).
    unfold move. run_with (read_cell_Done _ _ _ _ Hkn Hn).
    rewrite Z.eqb_refl. cbv beta iota delta [negb].
    run_with (read_cell_Done _ _ _ _ Hko Ho). reflexivity.
  - intros p Hn Ho Hp.
    apply getitem_Some in Hn as (kn & Hkn & Hn).
    apply getitem_Some in Ho as (ko & Hko & Ho).
    exists (<[ko:=0]> (board b)), (<[kn:=p]> (<[ko:=0]> (board b))).
    split; [now apply setitem_Some|].
    split; [apply setitem_Some; now rewrite length_insert|].
    now apply move_run.
Qed.

Lemma move_raises_or_relocates_witness :
  move 40 42 initial_board = Raised OccupiedSquare initial_board /\
  move 33 32 initial_board = Raised NonExistentPiece initial_board /\
  exists cells,
    move 40 33 initial_board =
    Done tt (mkBoard cells RED [MadeMove 40 33 [] false 0] true None 1) /\
    getitem cells 40 = Some 0 /\ getitem cells 33 = Some 1.
Proof.
  destruct (move_raises_or_relocates initial_board 40 42) as (H1 & _ & _).
  destruct (move_raises_or_relocates initial_board 33 32) as (_ & H2 & _).
  destruct (move_raises_or_relocates initial_board 40 33) as (_ & _ & H3).
  split; [apply (H1 1); [reflexivity|discriminate]|].
  split; [apply H2; reflexivity|].
  destruct (H3 1) as (c1 & c2 & E1 & E2 & E3); [reflexivity|reflexivity|discriminate|].
  exists c2. split; [exact E3|].
  vm_compute in E1. inversion E1; subst c1. clear E1.
  vm_compute in E2. inversion E2; subst c2. clear E2.
  split; reflexivity.
Defined.

(** ** [kill_piece] *)

Lemma kill_piece_run (b : Board) (index : Z) (k : nat) (p : Z)
      (h : list made_move) (e : made_move) :
  py_norm (length (board b)) index = Some k ->
  board b !! k = Some p ->
  p <> 0 ->
  made_moves b = h ++ [e] ->
  kill_piece index b = Done tt (killed b index k p h e).
Proof.
  intros Hk Hp Hne Hh. unfold kill_piece.
  run_with (read_cell_Done _ _ _ _ Hk Hp).
  apply Z.eqb_neq in Hne. rewrite Hne.
  run_with (top_entry_snoc _ _ _ Hh).
  run_with (read_cell_Done _ _ _ _ Hk Hp).
  unfold bind, modify. simpl.
  now rewrite (write_cell_Done _ _ _ k).
Qed.

Lemma kill_piece_Done_inv (b b' : Board) (index : Z) :
  kill_piece index b = Done tt b' ->
  exists k p h e,
    py_norm (length (board b)) index = Some k /\
    board b !! k = Some p /\
    p <> 0 /\
    made_moves b = h ++ [e] /\
    b' = killed b index k p h e.
Proof.
  intros H.
  destruct (read_cell index b) as [d b1|x b1] eqn:Hd.
  2:{ unfold kill_piece in H. rewrite (bind_Raised _ _ _ _ _ Hd) in H.
      discriminate. }
  apply read_cell_inv in Hd as [(k & p & Hk & Hp & E)|[_ E]]; [|discriminate].
  inversion E; subst d b1; clear E.
  destruct (Z.eqb_spec p 0) as [->|Hne].
  { unfold kill_piece in H. run_with (read_cell_Done _ _ _ _ Hk Hp) in H.
    discriminate. }
  destruct (unsnoc (made_moves b)) as [[h e]|] eqn:Hh.
  2:{ unfold kill_piece in H. run_with (read_cell_Done _ _ _ _ Hk Hp) in H.
      apply Z.eqb_neq in Hne. rewrite Hne in H.
      unfold bind at 1 in H. unfold top_entry in H. rewrite Hh in H.
      discriminate. }
  apply unsnoc_Some in Hh.
  exists k, p, h, e. repeat split; try assumption.
  rewrite (kill_piece_run b index k p h e) in H by assumption.
  now inversion H.
Qed.

Lemma kills_logged_nil (cells : list Z) : kills_logged cells cells [].
Proof.
  split; try tauto.
  intros c p [].
Qed.

Lemma kills_run (captured : list Z) :
  forall (b b' : Board) (h : list made_move) (e : made_move),
    for_each kill_piece captured b = Done tt b' ->
    made_moves b = h ++ [e] ->
    exists log,
      kills_logged (board b) (board b') log /\
      made_moves b' = h ++ [add_kills e log] /\
      current_side b' = current_side b /\
      is_playing b' = is_playing b /\
      winner b' = winner b.
Proof.
  induction captured as [|c cs IH]; intros b b' h e Hrun Hh.
  - inversion Hrun; subst b'. exists []. split; [apply kills_logged_nil|].
    unfold add_kills. rewrite app_nil_r, Hh. now destruct e.
  - simpl in Hrun. apply bind_Done_inv in Hrun as ([] & b1 & Hkill & Hrest).
    apply kill_piece_Done_inv in Hkill
      as (k & p & h0 & e0 & Hk & Hp & Hne & Hh0 & ->).
    rewrite Hh in Hh0. apply app_inj_tail in Hh0 as [<- <-].
    destruct (IH _ _ h (add_kills e [(c, p)]) Hrest eq_refl)
      as (log & [L1 L2 L3 L4] & Hm & Hs & Hp' & Hw).
    simpl in *. rewrite length_insert in *.
    assert (Hklt : (k < length (board b))%nat) by now apply py_norm_lt in Hk.
    exists ((c, p) :: log). split; [split|].
    + exact L1.
    + intros j. destruct (L2 j) as [E|E]; [|now right].
      destruct (decide (j = k)) as [->|Hjk].
      * right. rewrite E. now apply list_lookup_insert_eq.
      * left. rewrite E. now apply list_lookup_insert_ne.
    + intros c' p' [E|Hin].
      * inversion E; subst c' p'. split; [assumption|]. now exists k.
      * destruct (L3 c' p' Hin) as (Hne' & k' & Hk' & Hv).
        split; [assumption|]. exists k'. split; [assumption|].
        destruct (decide (k' = k)) as [->|Hkk].
        -- rewrite list_lookup_insert_eq in Hv by assumption. congruence.
        -- now rewrite list_lookup_insert_ne in Hv.
    + intros j Hj.
      destruct (decide (board b' !! j = <[k:=0]> (board b) !! j)) as [E|NE].
      * exists c, p. split; [now left|].
        destruct (decide (j = k)) as [->|Hjk]; [assumption|].
        rewrite list_lookup_insert_ne in E by congruence. contradiction.
      * destruct (L4 j NE) as (c' & p' & Hin & Hk').
        exists c', p'. split; [now right|assumption].
    + rewrite Hm. unfold add_kills. simpl. rewrite <- app_assoc. simpl.
      repeat split; assumption.
Qed.

(** Writing the logged captures back, as [undo_move] does, restores the
    cells the run of kills started from. *)
Lemma restore_run (log : list (Z * Z)) :
  forall (b : Board) (before : list Z),
    length (board b) = length before ->
    (forall c p, In (c, p) log ->
                 exists k, py_norm (length before) c = Some k /\
                           before !! k = Some p) ->
    (forall j, board b !! j <> before !! j ->
               exists c p, In (c, p) log /\ py_norm (length before) c = Some j) ->
    for_each (fun ip => write_cell (fst ip) (snd ip)) log b
    = Done tt (set_board before b).
Proof.
  induction log as [|[c p] log IH]; intros b before Hlen Hlog Hch.
  - assert (E : board b = before).
    { apply list_eq. intros j.
      destruct (decide (board b !! j = before !! j)) as [|NE]; [assumption|].
      destruct (Hch j NE) as (? & ? & [] & _). }
    destruct b; simpl in *; subst. reflexivity.
  - destruct (Hlog c p (or_introl eq_refl)) as (k & Hk & Hv).
    assert (Hklt : (k < length before)%nat) by now apply py_norm_lt in Hk.
    simpl for_each. rewrite <- Hlen in Hk.
    run_with (write_cell_Done (fst (c, p)) (snd (c, p)) b k Hk).
    rewrite IH with (before := before).
    + reflexivity.
    + simpl. now rewrite length_insert.
    + intros c' p' Hin. apply Hlog. now right.
    + simpl. intros j Hj.
      destruct (decide (j = k)) as [->|Hjk].
      * rewrite list_lookup_insert_eq in Hj by lia. congruence.
      * rewrite list_lookup_insert_ne in Hj by congruence.
        destruct (Hch j Hj) as (c' & p' & [E|Hin] & Hk').
        -- inversion E; subst c' p'. rewrite Hlen in Hk. congruence.
        -- now exists c', p'.
Qed.

(** ** [make_king] *)

Lemma wrap_in_range (z : Z) : int_min <= z <= int_max -> wrap z = z.
Proof.
  unfold wrap, int_min, int_max, int_bits. intros H.
  rewrite Z.mod_small; lia.
Qed.

Lemma make_king_run (b : Board) (index : Z) (k : nat) (p : Z)
      (h : list made_move) (e : made_move) :
  at_edges index = true ->
  py_norm (length (board b)) index = Some k ->
  board b !! k = Some p ->
  p <> 0 ->
  made_moves b = h ++ [e] ->
  make_king index b =
  Done tt (set_made_moves (h ++ [crowned e])
             (set_board (<[k:=wrap (p * 2)]> (board b)) b)).
Proof.
  intros He Hk Hp Hne Hh. unfold make_king, piece.
   rewrite He. cbv beta iota delta [negb].
  run_with (read_cell_Done _ _ _ _ Hk Hp).
  apply Z.eqb_neq in Hne. rewrite Hne.
  run_with (read_cell_Done _ _ _ _ Hk Hp).
  run_with (write_cell_Done index (wrap (p * 2)) _ _ Hk).
  erewrite bind_Done; cycle 1.
  { apply top_entry_snoc. simpl. exact Hh. }
  reflexivity.
Qed.

Lemma make_king_Done_inv (b b' : Board) (index : Z) :
  make_king index b = Done tt b' ->
  exists k p h e,
    at_edges index = true /\
    py_norm (length (board b)) index = Some k /\
    board b !! k = Some p /\
    p <> 0 /\
    made_moves b = h ++ [e] /\
    b' = set_made_moves (h ++ [crowned e])
           (set_board (<[k:=wrap (p * 2)]> (board b)) b).
Proof.
  intros H.
  destruct (at_edges index) eqn:He.
  2:{ unfold make_king in H.  rewrite He in H.
      discriminate. }
  destruct (read_cell index b) as [d b1|x b1] eqn:Hd.
  2:{ unfold make_king, piece in H.  rewrite He in H. cbv beta iota delta [negb] in H.
      rewrite (bind_Raised _ _ _ _ _ Hd) in H. discriminate. }
  apply read_cell_inv in Hd as [(k & p & Hk & Hp & E)|[_ E]]; [|discriminate].
  inversion E; subst d b1; clear E.
  destruct (Z.eqb_spec p 0) as [->|Hne].
  { unfold make_king, piece in H. 
    rewrite He in H. cbv beta iota delta [negb] in H.
    run_with (read_cell_Done _ _ _ _ Hk Hp) in H. discriminate. }
  destruct (unsnoc (made_moves b)) as [[h e]|] eqn:Hh.
  2:{ unfold make_king, piece in H.  rewrite He in H. cbv beta iota delta [negb] in H.
      run_with (read_cell_Done _ _ _ _ Hk Hp) in H.
      apply Z.eqb_neq in Hne. rewrite Hne in H.
      run_with (read_cell_Done _ _ _ _ Hk Hp) in H.
      run_with (write_cell_Done index (wrap (p * 2)) _ _ Hk) in H.
      unfold bind, top_entry in H. simpl in H. rewrite Hh in H.
      discriminate. }
  apply unsnoc_Some in Hh.
  exists k, p, h, e. repeat split; try assumption.
  rewrite (make_king_run b index k p h e) in H by assumption.
  now inversion H.
Qed.

(** ** [undo_move] *)

Lemma pop_made_move_snoc (b : Board) (h : list made_move) (e : made_move) :
  made_moves b = h ++ [e] -> pop_made_move b = Done e (set_made_moves h b).
Proof. intros H. unfold pop_made_move. now rewrite H, unsnoc_snoc. Qed.

(** One run of [undo_move] on an object whose top history entry is [e]:
    [cells1] are the cells after the promotion has been taken back,
    [cells2] the cells after the captures have been put back. *)
Lemma undo_move_run (b : Board) (h : list made_move) (e : made_move)
      (ko kn : nat) (v q : Z) (cells1 cells2 : list Z) :
  made_moves b = h ++ [e] ->
  py_norm (length (board b)) (new_position e) = Some kn ->
  py_norm (length (board b)) (old_position e) = Some ko ->
  board b !! kn = Some v ->
  cells1 = (if made_king e then <[kn:=v / 2]> (board b) else board b) ->
  for_each (fun ip => write_cell (fst ip) (snd ip)) (kill_positions e)
           (set_board cells1 (set_made_moves h b))
  = Done tt (set_board cells2 (set_made_moves h b)) ->
  length cells2 = length (board b) ->
  cells2 !! kn = Some q ->
  undo_move b =
  Done tt (mkBoard (<[ko:=q]> (<[kn:=0]> cells2))
                   (flip_side (current_side b)) h
                   (is_playing b) (winner b)
                   (saved_moves_without_kills e)).
Proof.
  intros Hh Hkn Hko Hv -> Hrestore Hlen Hq. unfold undo_move.
  run_with (pop_made_move_snoc _ _ _ Hh).
  assert (Hking :
    (if made_king e
     then v0 <- read_cell (new_position e);;
          write_cell (new_position e) (v0 / 2)
     else ret tt) (set_made_moves h b)
    = Done tt (set_board (if made_king e then <[kn:=v / 2]> (board b)
                          else board b) (set_made_moves h b))).
  { destruct (made_king e).
    - erewrite bind_Done; cycle 1.
      { apply (read_cell_Done _ _ kn v); assumption. }
      cbv beta. now rewrite (write_cell_Done _ _ _ kn).
    - destruct b; reflexivity. }
  run_with Hking. run_with Hrestore.
  erewrite bind_Done; cycle 1.
  { apply (read_cell_Done _ _ kn q); simpl; [now rewrite Hlen|assumption]. }
  cbv beta.
  erewrite bind_Done; cycle 1.
  { apply (write_cell_Done _ _ _ kn). simpl. now rewrite Hlen. }
  cbv beta.
  erewrite bind_Done; cycle 1.
  { apply (write_cell_Done _ _ _ ko). simpl. now rewrite length_insert, Hlen. }
  reflexivity.
Qed.

(** ** Compound turns *)

Lemma relocate_back (cells : list Z) (ko kn : nat) (p : Z) :
  cells !! kn = Some 0 -> cells !! ko = Some p -> p <> 0 ->
  <[ko:=p]> (<[kn:=0]> (<[kn:=p]> (<[ko:=0]> cells))) = cells.
Proof.
  intros Hn Ho Hp.
  assert (ko <> kn) by congruence.
  rewrite list_insert_insert_eq.
  rewrite list_insert_insert_ne by congruence.
  rewrite list_insert_insert_eq.
  rewrite (list_insert_id cells ko p) by assumption.
  now apply list_insert_id.
Qed.

Lemma play_then_undo (b b1 : Board) (m : Move.t) :
  play m b = Done tt b1 ->
  (Move.make_king m = true ->
   forall p, getitem (board b) (Move.start m) = Some p ->
             int_min <= p * 2 <= int_max) ->
  undo_move b1 = Done tt b.
Proof.
  intros Hplay Hrange. unfold play in Hplay.
  apply bind_Done_inv in Hplay as ([] & bm & Hmove & Hplay).
  apply bind_Done_inv in Hplay as ([] & bk & Hkills & Hking).
  apply move_Done_inv in Hmove as (ko & kn & p & Hkn & Hko & Hn & Ho & Hp & ->).
  set (e := MadeMove (Move.start m) (Move.end_ m) [] false
                     (moves_without_kills b)) in *.
  destruct (kills_run _ _ _ (made_moves b) e Hkills eq_refl)
    as (log & [L1 L2 L3 L4] & Hm & Hs & Hpl & Hw).
  simpl in L1, L2, L3, L4, Hs, Hpl, Hw. rewrite !length_insert in *.
  assert (Hkolt : (ko < length (board b))%nat) by now apply py_norm_lt in Hko.
  assert (Hknlt : (kn < length (board b))%nat) by now apply py_norm_lt in Hkn.
  assert (Hmn : (<[kn:=p]> (<[ko:=0]> (board b))) !! kn = Some p).
  { apply list_lookup_insert_eq. now rewrite length_insert. }
  assert (Hback : forall (cells : list Z) (q : Z),
             cells !! kn = Some q -> <[kn:=q]> cells = cells).
  { intros cells q Hq. now apply list_insert_id. }
  destruct (Move.make_king m) eqn:Hmk.
  - apply make_king_Done_inv in Hking
      as (k & v & h' & e' & He & Hk & Hv & Hv0 & Hh' & ->).
    rewrite L1 in Hk. rewrite Hkn in Hk. inversion Hk; subst k; clear Hk.
    rewrite Hm in Hh'. apply app_inj_tail in Hh' as [<- <-].
    assert (v = p) as ->.
    { destruct (L2 kn) as [E|E]; congruence. }
    assert (Hw2 : wrap (p * 2) = p * 2).
    { apply wrap_in_range, Hrange; [reflexivity|].
      apply getitem_Some. now exists ko. }
    rewrite Hw2.
    rewrite (undo_move_run _ (made_moves b) (crowned (add_kills e log))
               ko kn (p * 2) p (board bk) (<[kn:=p]> (<[ko:=0]> (board b)))).
    + simpl. rewrite relocate_back by assumption.
      rewrite Hs, Hpl, Hw, flip_side_involutive. now destruct b.
    + reflexivity.
    + simpl. now rewrite length_insert, L1.
    + simpl. now rewrite length_insert, L1.
    + simpl. apply list_lookup_insert_eq. now rewrite L1.
    + simpl. rewrite Z.div_mul by discriminate.
      rewrite list_insert_insert_eq. symmetry. now apply Hback.
    + simpl kill_positions.
      rewrite (restore_run log _ (<[kn:=p]> (<[ko:=0]> (board b)))).
      * reflexivity.
      * simpl. now rewrite !length_insert.
      * intros c q Hin. rewrite !length_insert. now apply (L3 c q).
      * simpl. rewrite !length_insert. exact L4.
    + simpl. now rewrite !length_insert, L1.
    + exact Hmn.
  - inversion Hking; subst b1; clear Hking.
    destruct (L2 kn) as [E|E].
    + rewrite Hmn in E.
      rewrite (undo_move_run _ (made_moves b) (add_kills e log)
                 ko kn p p (board bk) (<[kn:=p]> (<[ko:=0]> (board b)))).
      * simpl. rewrite relocate_back by assumption.
        rewrite Hs, Hpl, Hw, flip_side_involutive. now destruct b.
      * assumption.
      * simpl. now rewrite L1.
      * simpl. now rewrite L1.
      * assumption.
      * reflexivity.
      * simpl kill_positions.
        rewrite (restore_run log _ (<[kn:=p]> (<[ko:=0]> (board b)))).
        -- reflexivity.
        -- simpl. now rewrite !length_insert.
        -- intros c q Hin. rewrite !length_insert. now apply (L3 c q).
        -- simpl. rewrite !length_insert. exact L4.
      * simpl. now rewrite !length_insert, L1.
      * exact Hmn.
    + rewrite (undo_move_run _ (made_moves b) (add_kills e log)
                 ko kn 0 p (board bk) (<[kn:=p]> (<[ko:=0]> (board b)))).
      * simpl. rewrite relocate_back by assumption.
        rewrite Hs, Hpl, Hw, flip_side_involutive. now destruct b.
      * assumption.
      * simpl. now rewrite L1.
      * simpl. now rewrite L1.
      * assumption.
      * reflexivity.
      * simpl kill_positions.
        rewrite (restore_run log _ (<[kn:=p]> (<[ko:=0]> (board b)))).
        -- reflexivity.
        -- simpl. now rewrite !length_insert.
        -- intros c q Hin. rewrite !length_insert. now apply (L3 c q).
        -- simpl. rewrite !length_insert. exact L4.
      * simpl. now rewrite !length_insert, L1.
      * exact Hmn.
Qed.

(** C1 (amended): for every board [b] and every compound turn [m] played
    through the primitives ([move], then [kill_piece] for each captured
    cell in order, then [make_king] on the destination if [m] promotes),
    provided that, when [m] promotes, twice the value of the moved piece
    fits a cell of the array, a single [undo_move] returns normally and
    restores the hash, [moves_without_kills] and the side to move to their
    values in [b]; in fact it restores the whole object. *)
Theorem undo_move_inverts_play (b b1 : Board) (m : Move.t) :
  play m b = Done tt b1 ->
  (Move.make_king m = true ->
   forall p, getitem (board b) (Move.start m) = Some p ->
             int_min <= p * 2 <= int_max) ->
  exists b2,
    undo_move b1 = Done tt b2 /\
    hash b2 = hash b /\
    moves_without_kills b2 = moves_without_kills b /\
    current_side b2 = current_side b /\
    b2 = b.
Proof.
  intros Hplay Hrange. exists b.
  split; [now apply (play_then_undo b b1 m)|]. repeat split.
Qed.

Lemma undo_move_inverts_play_witness :
  play capture_and_crown capture_board
  = Done tt (state_of (play capture_and_crown capture_board)) /\
  exists b2,
    undo_move (state_of (play capture_and_crown capture_board)) = Done tt b2 /\
    hash b2 = hash capture_board /\
    moves_without_kills b2 = moves_without_kills capture_board /\
    current_side b2 = current_side capture_board /\
    b2 = capture_board.
Proof.
  split; [vm_compute; reflexivity|].
  apply (undo_move_inverts_play capture_board _ capture_and_crown).
  - vm_compute; reflexivity.
  - intros _ p Hp. vm_compute in Hp. inversion Hp; subst p.
    unfold int_min, int_max, int_bits. lia.
Defined.

(** C1, as stated, fails where [make_king] overflows: the constructor
    accepts the layout, the turn is played through the primitives without
    an error, [undo_move] returns normally, and the hash is not the one
    before the turn. *)
Lemma undo_move_inverts_play_counterexample :
  init (Some (board huge_piece_board)) BLUE = Some huge_piece_board /\
  value_of (play crown_huge_piece huge_piece_board) = Some tt /\
  value_of (undo_move (state_of (play crown_huge_piece huge_piece_board)))
  = Some tt /\
  hash (state_of (undo_move (state_of (play crown_huge_piece huge_piece_board))))
  <> hash huge_piece_board.
Proof.
  repeat split; try (vm_compute; reflexivity).
  vm_compute. discriminate.
Qed.

(** ** Promotion *)

(** C7 (amended): [make_king index] raises an error, and changes nothing,
    when the row of [index] is neither 0 nor 7, and likewise when the cell
    is empty; otherwise, when the history holds at least one entry and
    twice the value of the piece fits a cell of the array, it doubles the
    value of the piece (so its magnitude doubles, once per call), sets the
    promotion flag of the top history entry and leaves everything else as
    it was. *)
Theorem make_king_raises_or_doubles (b : Board) (index : Z) :
  (at_edges index = false -> make_king index b = Raised NotAtEdges b) /\
  (at_edges index = true -> getitem (board b) index = Some 0 ->
   make_king index b = Raised KingNonExistentPiece b) /\
  (forall p h e,
      at_edges index = true ->
      getitem (board b) index = Some p -> p <> 0 ->
      int_min <= p * 2 <= int_max ->
      made_moves b = h ++ [e] ->
      exists cells,
        setitem (board b) index (p * 2) = Some cells /\
        Z.abs (p * 2) = 2 * Z.abs p /\
        make_king index b =
        Done tt
          (mkBoard cells (current_side b)
                   (h ++ [MadeMove (old_position e) (new_position e)
                                   (kill_positions e) true
                                   (saved_moves_without_kills e)])
                   (is_playing b) (winner b) (moves_without_kills b))).
Proof.
  split; [|split].
  - intros He. unfold make_king.  now rewrite He.
  - intros He Hc. apply getitem_Some in Hc as (k & Hk & Hv).
    unfold make_king, piece.  rewrite He.
    cbv beta iota delta [negb].
    run_with (read_cell_Done _ _ _ _ Hk Hv). reflexivity.
  - intros p h e He Hc Hp Hrange Hh.
    apply getitem_Some in Hc as (k & Hk & Hv).
    exists (<[k:=p * 2]> (board b)).
    split; [now apply setitem_Some|]. split; [lia|].
    rewrite (make_king_run b index k p h e) by assumption.
    now rewrite wrap_in_range.
Qed.

Lemma make_king_raises_or_doubles_witness :
  make_king 9 reached_top_row = Raised NotAtEdges reached_top_row /\
  make_king 3 reached_top_row = Raised KingNonExistentPiece reached_top_row /\
  exists cells,
    setitem (board reached_top_row) 1 2 = Some cells /\
    make_king 1 reached_top_row =
    Done tt (mkBoard cells RED [MadeMove 8 1 [] true 0] true None 1).
Proof.
  destruct (make_king_raises_or_doubles reached_top_row 9) as (H1 & _ & _).
  destruct (make_king_raises_or_doubles reached_top_row 3) as (_ & H2 & _).
  destruct (make_king_raises_or_doubles reached_top_row 1) as (_ & _ & H3).
  split; [apply H1; reflexivity|].
  split; [apply H2; reflexivity|].
  destruct (H3 1 [] (MadeMove 8 1 [] false 0)) as (cells & E1 & _ & E2);
    try reflexivity; try discriminate.
  { unfold int_min, int_max, int_bits. lia. }
  exists cells. split; [exact E1|exact E2].
Defined.

(** C7, as stated, fails twice.  On a board straight from the constructor
    the history is empty: the red piece on cell 1 (top row) is doubled, and
    then the call raises, because there is no top entry to flag.  And a
    piece whose double does not fit a cell comes out of a successful call
    with a magnitude that is not twice the one it had. *)
Lemma make_king_raises_or_doubles_counterexample :
  (at_edges 1 = true /\
   getitem (board initial_board) 1 = Some (-1) /\
   make_king 1 initial_board
   = Raised ListIndexOutOfRange
       (set_board (<[1%nat:=-2]> (board initial_board)) initial_board)) /\
  (let b := mkBoard (<[1%nat:=2 ^ 62 + 1]> (replicate 64 0)) RED
                    [MadeMove 8 1 [] false 0] true None 1 in
   value_of (make_king 1 b) = Some tt /\
   getitem (board b) 1 = Some (2 ^ 62 + 1) /\
   getitem (board (state_of (make_king 1 b))) 1 = Some (- 2 ^ 63 + 2)).
Proof.
  repeat split; vm_compute; reflexivity.
Qed.

(** ** Draws *)

Lemma getitem_is_Some {A : Type} (l : list A) (i : Z) :
  - Z.of_nat (length l) <= i < Z.of_nat (length l) -> is_Some (getitem l i).
Proof.
  intros Hi. unfold getitem.
  destruct (py_norm (length l) i) as [k|] eqn:Hk.
  - apply lookup_lt_is_Some. now apply py_norm_lt in Hk.
  - unfold py_norm in Hk.
    destruct (Z.leb_spec 0 i), (Z.ltb_spec i (Z.of_nat (length l))),
      (Z.leb_spec (- Z.of_nat (length l)) i), (Z.ltb_spec i 0);
      simpl in Hk; try discriminate; lia.
Qed.

Lemma repetition_is_Some (h : list made_move) :
  (6 <= length h)%nat -> is_Some (repetition h).
Proof.
  intros Hlen. unfold repetition.
  destruct (getitem_is_Some h (-2)) as [? ->]; [lia|].
  destruct (getitem_is_Some h (-4)) as [? ->]; [lia|].
  destruct (getitem_is_Some h (-6)) as [? ->]; [lia|].
  destruct (getitem_is_Some h (-1)) as [? ->]; [lia|].
  destruct (getitem_is_Some h (-3)) as [? ->]; [lia|].
  destruct (getitem_is_Some h (-5)) as [? ->]; [lia|].
  eexists; reflexivity.
Qed.

Lemma is_draw_by_attrition (b : Board) :
  40 <= moves_without_kills b ->
  (6 <= length (made_moves b))%nat ->
  is_draw b = Done true (drawn b).
Proof.
  intros Hc Hlen. unfold is_draw, bind, get.
  apply Z.leb_le in Hc. rewrite Hc.
  destruct (repetition_is_Some _ Hlen) as [r ->].
  now destruct (side_eqb (current_side b) BLUE), r.
Qed.

Lemma play_moves_counts (calls : list (Z * Z)) :
  forall b b',
    play_moves calls b = Done tt b' ->
    moves_without_kills b' = moves_without_kills b + Z.of_nat (length calls) /\
    length (made_moves b') = (length (made_moves b) + length calls)%nat.
Proof.
  induction calls as [|[o n] calls IH]; intros b b' H.
  - unfold play_moves in H. simpl in H. inversion H; subst.
    simpl. split; lia.
  - unfold play_moves in H. simpl in H.
    apply bind_Done_inv in H as ([] & b1 & Hmove & Hrest).
    apply move_Done_inv in Hmove as (ko & kn & p & _ & _ & _ & _ & _ & ->).
    apply IH in Hrest as [H1 H2]. simpl in H1, H2.
    rewrite length_app in H2. simpl in *. split; lia.
Qed.

(** After forty [move] calls that return normally, starting from a counter
    that is not negative, [is_draw] reports a draw. *)
Lemma quiet_moves_draw (b b' : Board) (calls : list (Z * Z)) :
  0 <= moves_without_kills b ->
  length calls = 40%nat ->
  play_moves calls b = Done tt b' ->
  40 <= moves_without_kills b' /\ is_draw b' = Done true (drawn b').
Proof.
  intros Hc Hlen Hrun.
  apply play_moves_counts in Hrun as [H1 H2]. rewrite Hlen in H1, H2.
  split; [lia|]. apply is_draw_by_attrition; lia.
Qed.

Lemma is_draw_run (b : Board) :
  is_draw b = Done (draws b) (if draws b then drawn b else b).
Proof.
  unfold is_draw, draws, bind, get.
  destruct (side_eqb (current_side b) BLUE);
    [destruct (repetition (made_moves b)) as [[|]|]|];
    try destruct (40 <=? moves_without_kills b); reflexivity.
Qed.

(** ** The hash *)

(** C9: two board objects whose cell arrays are element-wise identical
    have the same hash, whatever their histories, sides to move and status
    fields are. *)
Theorem hash_path_independent (b1 b2 : Board) :
  board b1 = board b2 -> hash b1 = hash b2.
Proof. unfold hash. now intros ->. Qed.

Lemma hash_path_independent_witness :
  hash (state_of (undo_move (state_of (move 40 33 initial_board))))
  = hash (mkBoard default_arrange_pieces RED [MadeMove 8 1 [] true 3]
                  false (Some 1) 17).
Proof.
  apply hash_path_independent. vm_compute. reflexivity.
Defined.

(** ** State update *)

Lemma piece_in_nonzero (p : Z) (s : PieceTypes) : piece_in p s = true -> p <> 0.
Proof.
  unfold piece_in. intros H ->. now destruct s.
Qed.

Lemma all_pieces_spec (cells : list Z) (p start : Z) :
  In (p, start) (all_pieces cells) <->
  exists i, cells !! i = Some p /\ start = Z.of_nat i /\ p <> 0.
Proof.
  unfold all_pieces. rewrite filter_In. simpl. split.
  - intros [Hin Hp]. apply list_elem_of_In in Hin.
    apply elem_of_lookup_imap in Hin as (i & x & E & Hx).
    inversion E; subst. exists i. repeat split; [assumption|].
    intros ->. discriminate.
  - intros (i & Hi & -> & Hp). split.
    + apply list_elem_of_In. apply elem_of_lookup_imap. now exists i, p.
    + now apply negb_true_iff, Z.eqb_neq.
Qed.

Section EvaluationProperties.

Variable generate_sliding_moves : Z -> Z -> list Z -> list Move.t.
Variable generate_attacking_moves : Z -> Z -> list Z -> list Move.t.

Abbreviation finds := (finds_a_move generate_sliding_moves generate_attacking_moves).
Abbreviation update := (update_state generate_sliding_moves generate_attacking_moves).
Abbreviation evaluate := (score generate_sliding_moves generate_attacking_moves).

Abbreviation can_move' := (can_move generate_sliding_moves generate_attacking_moves).

Lemma finds_a_move_true (side : PieceTypes) (cells : list Z)
      (pieces : list (Z * Z)) :
  finds side cells pieces = true <->
  exists p start, In (p, start) pieces /\ piece_in p side = true /\
                  can_move' cells p start.
Proof.
  unfold can_move. induction pieces as [|[q s] rest IH]; simpl.
  - split; [discriminate|]. now intros (? & ? & [] & _).
  - destruct (piece_in q side) eqn:Hq.
    + destruct (generate_attacking_moves q s cells) as [|ma la] eqn:Ha;
        [destruct (generate_sliding_moves q s cells) as [|ms ls] eqn:Hs|];
        simpl.
      * rewrite IH. split.
        -- intros (p & st & Hin & Hp & Hm). exists p, st. auto.
        -- intros (p & st & [E|Hin] & Hp & Hm).
           ++ inversion E; subst. rewrite Ha, Hs in Hm. now destruct Hm.
           ++ now exists p, st.
      * split; [|reflexivity]. intros _. exists q, s.
        repeat split; [now left|assumption|]. left. rewrite Hs. discriminate.
      * split; [|reflexivity]. intros _. exists q, s.
        repeat split; [now left|assumption|]. right. rewrite Ha. discriminate.
    + rewrite IH. split.
      * intros (p & st & Hin & Hp & Hm). exists p, st. auto.
      * intros (p & st & [E|Hin] & Hp & Hm).
        -- inversion E; subst. congruence.
        -- now exists p, st.
Qed.

Lemma update_state_run (b : Board) :
  update b =
  Done tt (if draws b then drawn b
           else if finds (current_side b) (board b) (all_pieces (board b))
                then b else lost b).
Proof.
  unfold update_state. run_with (is_draw_run b).
  destruct (draws b); [reflexivity|].
  unfold bind, get.
  now destruct (finds (current_side b) (board b) (all_pieces (board b))).
Qed.

Lemma winner_of_lost (s : PieceTypes) :
  piece_in (List.nth 0 (value s) 0 * -1) (opponent_of s) = true.
Proof. now destruct s. Qed.

Lemma draws_false (b : Board) :
  value_of (is_draw b) = Some false -> draws b = false.
Proof. rewrite is_draw_run. simpl. congruence. Qed.

Lemma update_state_lost (b : Board) :
  draws b = false ->
  finds (current_side b) (board b) (all_pieces (board b)) = false ->
  update b = Done tt (lost b).
Proof. intros Hd Hf. now rewrite update_state_run, Hd, Hf. Qed.

Lemma update_state_goes_on (b : Board) :
  draws b = false ->
  finds (current_side b) (board b) (all_pieces (board b)) = true ->
  update b = Done tt b.
Proof. intros Hd Hf. now rewrite update_state_run, Hd, Hf. Qed.

(** C5 (amended): on a board that [is_draw] does not declare drawn, if the
    side to move owns at least one piece and every piece it owns has no
    simple move and no capture move, [update_state] records a value of the
    opposite side as [winner] and sets [is_playing] to [False], and
    touches nothing else; conversely, if some piece of the side to move has
    a move, [update_state] changes nothing at all: [is_playing] and
    [winner] keep the values they had before the call, so that a game that
    was playing with no winner stays so, and a game already recorded as
    over stays over. *)
Theorem no_move_loss (b : Board) :
  value_of (is_draw b) = Some false ->
  ((exists i p, owns (current_side b) (board b) i p) ->
   (forall i p, owns (current_side b) (board b) i p ->
                generate_sliding_moves p (Z.of_nat i) (board b) = [] /\
                generate_attacking_moves p (Z.of_nat i) (board b) = []) ->
   exists w,
     update b = Done tt (mkBoard (board b) (current_side b) (made_moves b)
                                 false (Some w) (moves_without_kills b)) /\
     piece_in w (opponent_of (current_side b)) = true /\
     is_playing (state_of (update b)) = false /\
     winner (state_of (update b)) = Some w) /\
  ((exists i p, owns (current_side b) (board b) i p /\
                can_move' (board b) p (Z.of_nat i)) ->
   update b = Done tt b /\
   is_playing (state_of (update b)) = is_playing b /\
   winner (state_of (update b)) = winner b).
Proof.
  intros Hnd. apply draws_false in Hnd. split.
  - intros _ Hnone.
    exists (List.nth 0 (value (current_side b)) 0 * -1).
    assert (Hrun : update b = Done tt (lost b)).
    { apply update_state_lost; [assumption|].
      apply not_true_is_false. intros Hf.
      apply finds_a_move_true in Hf as (p & start & Hin & Hp & Hm).
      apply all_pieces_spec in Hin as (i & Hi & -> & _).
      destruct (Hnone i p (conj Hi Hp)) as [Hs Ha].
      destruct Hm as [Hm|Hm]; contradiction. }
    rewrite Hrun. split; [reflexivity|].
    split; [apply winner_of_lost|]. split; reflexivity.
  - intros (i & p & [Hi Hp] & Hm).
    assert (Hrun : update b = Done tt b).
    { apply update_state_goes_on; [assumption|].
      apply finds_a_move_true. exists p, (Z.of_nat i).
      repeat split; try assumption.
      apply all_pieces_spec. exists i. repeat split; [assumption|].
      now apply piece_in_nonzero in Hp. }
    rewrite Hrun. repeat split.
Qed.

(** C10: on a board that [is_draw] does not declare drawn and on which
    the side to move owns no piece at all (as after [clear]),
    [update_state] records a value of the opposite side as [winner] and
    sets [is_playing] to [False]. *)
Theorem no_pieces_loss (b : Board) :
  value_of (is_draw b) = Some false ->
  (forall i p, board b !! i = Some p -> piece_in p (current_side b) = false) ->
  exists w,
    update b = Done tt (set_is_playing false (set_winner (Some w) b)) /\
    piece_in w (opponent_of (current_side b)) = true /\
    is_playing (state_of (update b)) = false /\
    winner (state_of (update b)) = Some w.
Proof.
  intros Hnd Hnone. apply draws_false in Hnd.
  exists (List.nth 0 (value (current_side b)) 0 * -1).
  assert (Hrun : update b = Done tt (lost b)).
  { apply update_state_lost; [assumption|].
    apply not_true_is_false. intros Hf.
    apply finds_a_move_true in Hf as (p & start & Hin & Hp & _).
    apply all_pieces_spec in Hin as (i & Hi & _).
    rewrite (Hnone i p Hi) in Hp. discriminate. }
  rewrite Hrun. repeat split. apply winner_of_lost.
Qed.

End EvaluationProperties.

Lemma no_move_loss_witness :
  (exists w,
      update_state no_moves no_moves initial_board
      = Done tt (mkBoard default_arrange_pieces BLUE [] false (Some w) 0) /\
      piece_in w RED = true /\
      is_playing (state_of (update_state no_moves no_moves initial_board))
      = false /\
      winner (state_of (update_state no_moves no_moves initial_board))
      = Some w) /\
  (update_state one_step no_moves initial_board = Done tt initial_board /\
   is_playing (state_of (update_state one_step no_moves initial_board))
   = true /\
   winner (state_of (update_state one_step no_moves initial_board)) = None).
Proof.
  destruct (no_move_loss no_moves no_moves initial_board) as [H1 _];
    [reflexivity|].
  destruct (no_move_loss one_step no_moves initial_board) as [_ H2];
    [reflexivity|].
  split.
  - apply H1.
    + exists 40%nat, 1. split; reflexivity.
    + intros i p _. split; reflexivity.
  - apply H2. exists 40%nat, 1. split; [split; reflexivity|].
    left. discriminate.
Defined.

(** C5, as stated, fails in its converse half: [update_state] never sets
    [is_playing] back to [True] and never clears [winner].  On a board the
    class produces (a blue piece steps from cell 9 to the top row,
    [update_state] records blue's win because red owns no piece, and the
    move is taken back) blue is to move, the board is not drawn, blue's
    piece on cell 9 has a move, and yet after [update_state] the game is
    over with blue recorded as the winner. *)
Lemma no_move_loss_counterexample :
  reachable one_step no_moves won_position /\
  current_side won_position = BLUE /\
  value_of (is_draw won_position) = Some false /\
  owns (current_side won_position) (board won_position) 9 1 /\
  can_move one_step no_moves (board won_position) 1 9 /\
  is_playing (state_of (update_state one_step no_moves won_position))
  = false /\
  winner (state_of (update_state one_step no_moves won_position)) = Some 1.
Proof.
  split.
  { unfold won_position.
    apply reach_undo_move, reach_update_state, reach_move.
    now apply (reach_init _ _ (Some (<[9%nat:=1]> (replicate 64 0))) BLUE). }
  split; [reflexivity|].
  split; [vm_compute; reflexivity|].
  split; [split; vm_compute; reflexivity|].
  split; [left; discriminate|].
  split; vm_compute; reflexivity.
Qed.

Lemma no_pieces_loss_witness :
  exists w,
    update_state one_step one_step (state_of (clear initial_board))
    = Done tt (set_is_playing false
                 (set_winner (Some w) (state_of (clear initial_board)))) /\
    piece_in w RED = true /\
    is_playing (state_of (update_state one_step one_step
                            (state_of (clear initial_board)))) = false /\
    winner (state_of (update_state one_step one_step
                        (state_of (clear initial_board)))) = Some w.
Proof.
  apply (no_pieces_loss one_step one_step (state_of (clear initial_board))).
  - reflexivity.
  - intros i p H.
    change (board (state_of (clear initial_board))) with (replicate 64 0) in H.
    apply lookup_replicate in H as [-> _]. reflexivity.
Defined.

(** ** Evaluation *)

Lemma piece_in_disjoint (w : Z) (s : PieceTypes) :
  piece_in w s = true -> piece_in w (opponent_of s) = false.
Proof.
  unfold piece_in. destruct s; simpl;
    destruct (Z.eqb_spec w 1), (Z.eqb_spec w 2),
      (Z.eqb_spec w (-1)), (Z.eqb_spec w (-2)); simpl; intros; try lia;
      congruence.
Qed.

Lemma no_of_pieces_mover (b : Board) : no_of_pieces b = mover_material b.
Proof. unfold no_of_pieces, mover_material. now destruct (current_side b). Qed.

(** Two floats that the comparison tells apart are different values. *)
Lemma PyFloat_neq (f g : float) :
  (f =? g)%float = false /\ (g =? g)%float = true -> PyFloat f <> PyFloat g.
Proof.
  intros [Hfg Hgg] E. injection E as ->. congruence.
Qed.

Section ScoreProperties.

Variable generate_sliding_moves : Z -> Z -> list Z -> list Move.t.
Variable generate_attacking_moves : Z -> Z -> list Z -> list Move.t.

Abbreviation update := (update_state generate_sliding_moves generate_attacking_moves).
Abbreviation evaluate := (score generate_sliding_moves generate_attacking_moves).
Abbreviation heuristic_of :=
  (heuristic generate_sliding_moves generate_attacking_moves).

(** [update_state] only ever touches [is_playing] and [winner]. *)
Lemma update_state_frame (b : Board) :
  board (state_of (update b)) = board b /\
  current_side (state_of (update b)) = current_side b /\
  made_moves (state_of (update b)) = made_moves b /\
  moves_without_kills (state_of (update b)) = moves_without_kills b.
Proof.
  rewrite update_state_run.
  destruct (draws b); [now simpl|].
  now destruct (finds_a_move _ _ _ _ _).
Qed.

Lemma score_run (b : Board) :
  evaluate b =
  Done (if negb (is_playing (state_of (update b)))
        then terminal_value (state_of (update b))
        else Num (heuristic_of
                    (endgame_weight (no_of_pieces (state_of (update b))))
                    (state_of (update b))))
       (state_of (update b)).
Proof.
  unfold score. run_with (update_state_run generate_sliding_moves generate_attacking_moves b).
  rewrite update_state_run.
  simpl state_of. set (b' := if draws b then _ else _).
  unfold bind, get, terminal_value.
  destruct (is_playing b'); simpl; [reflexivity|].
  destruct (winner b') as [w|]; [|reflexivity].
  now destruct (piece_in w (opponent_of (current_side b'))).
Qed.

(** C8: when the game is over after the [update_state] call that [score]
    starts with, [score] returns 0 if no winner is recorded (a draw),
    [-inf] if the recorded winner is a value of the opponent of the side to
    move (the side to move has lost), and [+inf] if it is a value of the
    side to move (the side to move has won). *)
Theorem terminal_score (b : Board) :
  is_playing (state_of (update b)) = false ->
  (winner (state_of (update b)) = None ->
   evaluate b = Done (Num 0) (state_of (update b))) /\
  (forall w,
      winner (state_of (update b)) = Some w ->
      piece_in w (opponent_of (current_side (state_of (update b)))) = true ->
      evaluate b = Done NegInf (state_of (update b))) /\
  (forall w,
      winner (state_of (update b)) = Some w ->
      piece_in w (current_side (state_of (update b))) = true ->
      evaluate b = Done PosInf (state_of (update b))).
Proof.
  intros Hover. rewrite score_run, Hover. simpl negb. cbv iota.
  unfold terminal_value. split; [|split].
  - now intros ->.
  - intros w -> Hw. now rewrite Hw.
  - intros w -> Hw. now rewrite (piece_in_disjoint w _ Hw).
Qed.

(** C4 (amended): [score] returns normally and leaves
    [moves_without_kills], the cells, the history and the side to move as
    they were; [is_playing] and [winner] are left as the [update_state]
    call that [score] starts with sets them. *)
Theorem score_frame (b : Board) :
  exists v,
    evaluate b = Done v (state_of (update b)) /\
    moves_without_kills (state_of (evaluate b)) = moves_without_kills b /\
    board (state_of (evaluate b)) = board b /\
    made_moves (state_of (evaluate b)) = made_moves b /\
    current_side (state_of (evaluate b)) = current_side b /\
    is_playing (state_of (evaluate b)) = is_playing (state_of (update b)) /\
    winner (state_of (evaluate b)) = winner (state_of (update b)).
Proof.
  rewrite score_run. eexists. split; [reflexivity|]. simpl state_of.
  destruct (update_state_frame b) as (Hb & Hs & Hm & Hc). tauto.
Qed.

(** C3 (amended): when the game is not over after the [update_state] call
    that [score] starts with, [score] returns the heuristic computed with
    the end-game weight [1 - min(1, n * (1 / 12))], evaluated in Python's
    arithmetic, where [n] is the number of cells holding a piece of the
    side to move itself (positive cells when blue is to move, negative
    cells when red is), counted on the board [score] was called on. *)
Theorem score_weight (b : Board) :
  is_playing (state_of (update b)) = true ->
  evaluate b =
  Done (Num (heuristic_of (endgame_weight (mover_material b))
                          (state_of (update b))))
       (state_of (update b)) /\
  endgame_weight (mover_material b) =
  (1 - num_min 1 (mover_material b * PyFloat (1 / 12)))%num.
Proof.
  intros Hplay. split; [|reflexivity].
  rewrite score_run, Hplay. simpl negb. cbv iota.
  rewrite no_of_pieces_mover.
  destruct (update_state_frame b) as (Hb & Hs & _ & _).
  unfold mover_material. now rewrite Hb, Hs.
Qed.

End ScoreProperties.

(** *** Concrete positions *)

Lemma terminal_score_witness :
  score one_step one_step (state_of (clear initial_board))
  = Done NegInf (state_of (update_state one_step one_step
                             (state_of (clear initial_board)))) /\
  score one_step no_moves (state_of (play_moves shuffle lone_piece))
  = Done (Num 0) (state_of (update_state one_step no_moves
                              (state_of (play_moves shuffle lone_piece)))) /\
  score one_step no_moves won_position
  = Done PosInf (state_of (update_state one_step no_moves won_position)).
Proof.
  split; [|split].
  - destruct (terminal_score one_step one_step (state_of (clear initial_board)))
      as (_ & H & _); [reflexivity|].
    apply (H (-1)); reflexivity.
  - destruct (terminal_score one_step no_moves
                (state_of (play_moves shuffle lone_piece)))
      as (H & _ & _); [vm_compute; reflexivity|].
    apply H. vm_compute; reflexivity.
  - destruct (terminal_score one_step no_moves won_position)
      as (_ & _ & H); [vm_compute; reflexivity|].
    apply (H 1); vm_compute; reflexivity.
Defined.

(** C4, as stated, fails: on an empty board straight from the constructor
    the game is playing with no winner, and after [score] it is over with
    red recorded as the winner; after forty quiet moves, [score] ends the
    game as a draw. *)
Lemma score_frame_counterexample :
  (init (Some (replicate 64 0)) BLUE = Some (state_of (clear initial_board)) /\
   is_playing (state_of (clear initial_board)) = true /\
   winner (state_of (clear initial_board)) = None /\
   is_playing (state_of (score one_step one_step
                           (state_of (clear initial_board)))) = false /\
   winner (state_of (score one_step one_step
                       (state_of (clear initial_board)))) = Some (-1)) /\
  (is_playing (state_of (play_moves shuffle lone_piece)) = true /\
   is_playing (state_of (score one_step no_moves
                           (state_of (play_moves shuffle lone_piece))))
   = false).
Proof.
  repeat split; vm_compute; reflexivity.
Qed.

Lemma score_weight_witness :
  score one_step no_moves outnumbered
  = Done (Num (heuristic one_step no_moves (endgame_weight 1) outnumbered))
         outnumbered /\
  endgame_weight 1 = PyFloat 0x1.d555555555555p-1.
Proof.
  destruct (score_weight one_step no_moves outnumbered) as [H _];
    [vm_compute; reflexivity|].
  split; [exact H|vm_compute; reflexivity].
Defined.

(** C3, as stated, fails: with one blue piece against two red pieces and
    blue to move, the game goes on, the opponent's material is 2, but the
    count [score] takes is 1, blue's own; the weight is the binary64 value
    next to 11/12 and not the one next to 10/12, and the score returned,
    about -1.0833, is not the one that weight would give, about -1.1667.
    Nor is the weight the quotient the claim writes: at a count of 5,
    [1 - 5 * (1 / 12)] and [1 - 5 / 12] round to different binary64
    values. *)
Lemma score_weight_counterexample :
  is_playing (state_of (score one_step no_moves outnumbered)) = true /\
  opponent_material outnumbered = 2 /\
  no_of_pieces outnumbered = 1 /\
  endgame_weight (no_of_pieces outnumbered) = PyFloat 0x1.d555555555555p-1 /\
  opponent_weight outnumbered = PyFloat 0x1.aaaaaaaaaaaabp-1 /\
  endgame_weight (no_of_pieces outnumbered) <> opponent_weight outnumbered /\
  value_of (score one_step no_moves outnumbered)
  = Some (Num (PyFloat (-0x1.1555555555556p+0))) /\
  heuristic one_step no_moves (opponent_weight outnumbered) outnumbered
  = PyFloat (-0x1.2aaaaaaaaaaaap+0) /\
  value_of (score one_step no_moves outnumbered)
  <> Some (Num (heuristic one_step no_moves (opponent_weight outnumbered)
                          outnumbered)) /\
  endgame_weight 5 = PyFloat 0x1.2aaaaaaaaaaabp-1 /\
  claimed_weight 5 = PyFloat 0x1.2aaaaaaaaaaaap-1 /\
  endgame_weight 5 <> claimed_weight 5.
Proof.
  assert (Hw : endgame_weight (no_of_pieces outnumbered)
               = PyFloat 0x1.d555555555555p-1) by (vm_compute; reflexivity).
  assert (Ho : opponent_weight outnumbered = PyFloat 0x1.aaaaaaaaaaaabp-1)
    by (vm_compute; reflexivity).
  assert (Hs : value_of (score one_step no_moves outnumbered)
               = Some (Num (PyFloat (-0x1.1555555555556p+0))))
    by (vm_compute; reflexivity).
  assert (Hh : heuristic one_step no_moves (opponent_weight outnumbered)
                         outnumbered
               = PyFloat (-0x1.2aaaaaaaaaaaap+0)) by (vm_compute; reflexivity).
  assert (H5 : endgame_weight 5 = PyFloat 0x1.2aaaaaaaaaaabp-1)
    by (vm_compute; reflexivity).
  assert (H5' : claimed_weight 5 = PyFloat 0x1.2aaaaaaaaaaaap-1)
    by (vm_compute; reflexivity).
  split; [vm_compute; reflexivity|].
  split; [vm_compute; reflexivity|].
  split; [vm_compute; reflexivity|].
  split; [exact Hw|]. split; [exact Ho|].
  split; [rewrite Hw, Ho; apply PyFloat_neq; split; vm_compute; reflexivity|].
  split; [exact Hs|]. split; [exact Hh|].
  split.
  { rewrite Hs, Hh. intros E.
    apply (f_equal (fun v => match v with
                             | Some (Num x) => x
                             | _ => PyInt 0
                             end)) in E.
    revert E. apply PyFloat_neq; split; vm_compute; reflexivity. }
  split; [exact H5|]. split; [exact H5'|].
  rewrite H5, H5'. apply PyFloat_neq; split; vm_compute; reflexivity.
Qed.

(** ** The counter of moves without kills is never negative *)

Lemma triple_bind {A B : Type} (P : Board -> Prop) (m : M A)
      (Q : A -> Board -> Prop) (k : A -> M B) (R : B -> Board -> Prop)
      (E : Board -> Prop) :
  triple P m Q E -> (forall a, triple (Q a) (k a) R E) ->
  triple P (bind m k) R E.
Proof.
  intros Hm Hk b HP. unfold bind. specialize (Hm b HP).
  destruct (m b) as [a b'|e b']; [now apply Hk|assumption].
Qed.

Lemma triple_ret {A : Type} (P : Board -> Prop) (a : A)
      (Q : A -> Board -> Prop) (E : Board -> Prop) :
  (forall b, P b -> Q a b) -> triple P (ret a) Q E.
Proof. intros H b HP. now apply H. Qed.

Lemma triple_raise {A : Type} (P : Board -> Prop) (e : IndexError)
      (Q : A -> Board -> Prop) (E : Board -> Prop) :
  (forall b, P b -> E b) -> triple P (raise e) Q E.
Proof. intros H b HP. now apply H. Qed.

Lemma triple_modify (P : Board -> Prop) (f : Board -> Board)
      (Q : unit -> Board -> Prop) (E : Board -> Prop) :
  (forall b, P b -> Q tt (f b)) -> triple P (modify f) Q E.
Proof. intros H b HP. now apply H. Qed.

Lemma triple_state_of {A : Type} (P : Board -> Prop) (m : M A) :
  triple P m (fun _ => P) P -> forall b, P b -> P (state_of (m b)).
Proof.
  intros H b HP. specialize (H b HP). now destruct (m b).
Qed.

Lemma triple_read_cell (P : Board -> Prop) (index : Z) :
  triple P (read_cell index) (fun _ => P) P.
Proof.
  intros b HP. unfold read_cell. now destruct (getitem (board b) index).
Qed.

Lemma triple_write_cell (P : Board -> Prop) (index v : Z) :
  cell_blind P -> triple P (write_cell index v) (fun _ => P) P.
Proof.
  intros Hblind b HP. unfold write_cell.
  destruct (setitem (board b) index v); [now apply Hblind|assumption].
Qed.

Lemma triple_for_each {A : Type} (P : Board -> Prop) (body : A -> M unit)
      (l : list A) :
  (forall x, triple P (body x) (fun _ => P) P) ->
  triple P (for_each body l) (fun _ => P) P.
Proof.
  intros Hbody. induction l as [|x l IH]; simpl.
  - now apply triple_ret.
  - eapply triple_bind; [apply Hbody|]. intros ?. exact IH.
Qed.

Lemma triple_top_entry (P : Board -> Prop) :
  triple P top_entry
         (fun he b => P b /\ made_moves b = fst he ++ [snd he]) P.
Proof.
  intros b HP. unfold top_entry.
  destruct (unsnoc (made_moves b)) as [[h e]|] eqn:Hh; [|assumption].
  split; [assumption|]. now apply unsnoc_Some.
Qed.

Lemma counters_nonneg_cell_blind : cell_blind counters_nonneg.
Proof. now intros b cells H. Qed.

Lemma init_counters_nonneg (layout : option (list Z)) (side : PieceTypes)
      (b : Board) :
  init layout side = Some b -> counters_nonneg b.
Proof.
  unfold init. intros H.
  destruct layout as [cells|];
    [destruct (forallb in_int_range cells); [|discriminate]|];
    inversion H; subst; split; simpl; (lia || constructor).
Qed.

Lemma move_counters_nonneg (old_index new_index : Z) :
  triple counters_nonneg (move old_index new_index)
         (fun _ => counters_nonneg) counters_nonneg.
Proof.
  unfold move.
  eapply triple_bind; [apply triple_read_cell|]. intros dest.
  destruct (negb (dest =? 0)); [now apply triple_raise|].
  eapply triple_bind; [apply triple_read_cell|]. intros origin.
  destruct (origin =? 0); [now apply triple_raise|].
  eapply triple_bind; [apply triple_read_cell|]. intros p.
  eapply triple_bind;
    [apply triple_write_cell, counters_nonneg_cell_blind|]. intros ?.
  eapply triple_bind;
    [apply triple_write_cell, counters_nonneg_cell_blind|]. intros ?.
  intros b [Hc Hh]. split; simpl; [lia|].
  apply Forall_app. split; [assumption|]. now constructor.
Qed.

Lemma kill_piece_counters_nonneg (index : Z) :
  triple counters_nonneg (kill_piece index)
         (fun _ => counters_nonneg) counters_nonneg.
Proof.
  unfold kill_piece.
  eapply triple_bind; [apply triple_read_cell|]. intros target.
  destruct (target =? 0); [now apply triple_raise|].
  eapply triple_bind; [apply triple_top_entry|]. intros [h e].
  intros b [[Hc Hh] Hm]. simpl in Hm.
  assert (Hh' := Hh). rewrite Hm in Hh'.
  apply Forall_app in Hh' as [Hh' He]. inversion He as [|? ? He' _]; subst.
  unfold bind, read_cell, modify, write_cell. simpl.
  destruct (getitem (board b) index); [|now split].
  simpl. destruct (setitem (board b) index 0); simpl;
    (split; simpl; [lia|]);
    (apply Forall_app; split; [assumption|constructor; [assumption|constructor]]).
Qed.

Lemma triple_weaken {A : Type} (P P' : Board -> Prop) (m : M A)
      (Q Q' : A -> Board -> Prop) (E E' : Board -> Prop) :
  (forall b, P' b -> P b) ->
  (forall a b, Q a b -> Q' a b) ->
  (forall b, E b -> E' b) ->
  triple P m Q E -> triple P' m Q' E'.
Proof.
  intros HP HQ HE H b Hb. specialize (H b (HP b Hb)).
  destruct (m b); auto.
Qed.

Lemma make_king_counters_nonneg (index : Z) :
  triple counters_nonneg (make_king index)
         (fun _ => counters_nonneg) counters_nonneg.
Proof.
  unfold make_king, piece.
  destruct (negb _); [now apply triple_raise|].
  eapply triple_bind; [apply triple_read_cell|]. intros p.
  destruct (p =? 0); [now apply triple_raise|].
  eapply triple_bind; [apply triple_read_cell|]. intros v.
  eapply triple_bind;
    [apply triple_write_cell, counters_nonneg_cell_blind|]. intros ?.
  eapply triple_bind; [apply triple_top_entry|]. intros [h e].
  intros b [[Hc Hh] Hm]. simpl in Hm. rewrite Hm in Hh.
  apply Forall_app in Hh as [Hh He]. inversion He; subst.
  split; simpl; [assumption|].
  apply Forall_app. split; [assumption|]. now repeat constructor.
Qed.

Lemma undo_move_counters_nonneg :
  triple counters_nonneg undo_move (fun _ => counters_nonneg) counters_nonneg.
Proof.
  unfold undo_move.
  apply triple_bind
    with (Q := fun e b => counters_nonneg b /\ 0 <= saved_moves_without_kills e).
  { intros b [Hc Hh]. unfold pop_made_move.
    destruct (unsnoc (made_moves b)) as [[h e]|] eqn:Hu; [|now split].
    apply unsnoc_Some in Hu. rewrite Hu in Hh.
    apply Forall_app in Hh as [Hh He]. inversion He; subst.
    repeat split; assumption. }
  intros e.
  set (J := fun b => counters_nonneg b /\ 0 <= saved_moves_without_kills e).
  assert (HJ : cell_blind J) by (intros b cells [H1 H2]; now split).
  apply triple_weaken with (P := J) (Q := fun _ => counters_nonneg) (E := J);
    try tauto; [now intros b [H _]|].
  eapply triple_bind with (Q := fun _ => J).
  { destruct (made_king e); [|now apply triple_ret].
    eapply triple_bind; [apply triple_read_cell|]. intros v.
    now apply triple_write_cell. }
  intros ?. eapply triple_bind with (Q := fun _ => J).
  { apply triple_for_each. intros ip. now apply triple_write_cell. }
  intros ?. eapply triple_bind; [apply triple_read_cell|]. intros p.
  eapply triple_bind; [now apply triple_write_cell|]. intros ?.
  eapply triple_bind; [now apply triple_write_cell|]. intros ?.
  intros b [[Hc Hh] He]. now split.
Qed.

Lemma is_draw_counters_nonneg (b : Board) :
  counters_nonneg b -> counters_nonneg (state_of (is_draw b)).
Proof. rewrite is_draw_run. now destruct (draws b). Qed.

Section Reachability.

Variable generate_sliding_moves : Z -> Z -> list Z -> list Move.t.
Variable generate_attacking_moves : Z -> Z -> list Z -> list Move.t.

Abbreviation update := (update_state generate_sliding_moves generate_attacking_moves).
Abbreviation evaluate := (score generate_sliding_moves generate_attacking_moves).

Abbreviation reachable' := (reachable generate_sliding_moves generate_attacking_moves).

Lemma reachable_counters_nonneg (b : Board) :
  reachable' b -> counters_nonneg b.
Proof.
  induction 1 as [layout side b Hinit|b _ IH|b _ IH|b o n _ IH|b i _ IH
                  |b i _ IH|b _ IH|b _ IH|b _ IH|b _ IH].
  - now apply init_counters_nonneg in Hinit.
  - split; simpl; [lia|constructor].
  - exact IH.
  - now apply (triple_state_of _ _ (move_counters_nonneg o n)).
  - now apply (triple_state_of _ _ (kill_piece_counters_nonneg i)).
  - now apply (triple_state_of _ _ (make_king_counters_nonneg i)).
  - now apply (triple_state_of _ _ undo_move_counters_nonneg).
  - now apply is_draw_counters_nonneg.
  - destruct (update_state_frame generate_sliding_moves
                generate_attacking_moves b) as (_ & _ & Hm & Hc).
    unfold counters_nonneg. now rewrite Hm, Hc.
  - destruct (update_state_frame generate_sliding_moves
                generate_attacking_moves b) as (_ & _ & Hm & Hc).
    rewrite score_run. simpl. unfold counters_nonneg. now rewrite Hm, Hc.
Qed.

(** C6: starting from any board the class produces, after 40 consecutive
    [move] calls that return normally, with no kill in between, the
    counter of moves without kills is at least 40, and [is_draw] returns
    [True], sets [winner] to [None] and [is_playing] to [False] (and changes
    nothing else). *)
Theorem draw_after_forty_moves (b b' : Board) (calls : list (Z * Z)) :
  reachable' b ->
  length calls = 40%nat ->
  play_moves calls b = Done tt b' ->
  40 <= moves_without_kills b' /\
  is_draw b' = Done true (set_is_playing false (set_winner None b')) /\
  winner (state_of (is_draw b')) = None /\
  is_playing (state_of (is_draw b')) = false.
Proof.
  intros Hreach Hlen Hrun.
  apply reachable_counters_nonneg in Hreach as [Hc _].
  destruct (quiet_moves_draw b b' calls Hc Hlen Hrun) as [H40 Hdraw].
  rewrite Hdraw. now repeat split.
Qed.

End Reachability.

Lemma draw_after_forty_moves_witness :
  play_moves shuffle lone_piece = Done tt (state_of (play_moves shuffle lone_piece)) /\
  is_draw (state_of (play_moves shuffle lone_piece))
  = Done true (set_is_playing false
                 (set_winner None (state_of (play_moves shuffle lone_piece)))).
Proof.
  split; [vm_compute; reflexivity|].
  apply (draw_after_forty_moves one_step one_step lone_piece _ shuffle).
  - apply (reach_init _ _ (Some (board lone_piece)) BLUE). reflexivity.
  - reflexivity.
  - vm_compute; reflexivity.
Defined.


(** * Further properties of the methods *)

(** ** Errors of [kill_piece], [move] and [make_king] *)

(** X1: [kill_piece index] raises, and changes nothing, when the index is
    out of bounds, when the cell is empty, and when the cell holds a piece
    but the history is empty (there is no entry to log the capture on);
    otherwise it appends [(index, piece)] to the captures of the top
    history entry, sets [moves_without_kills] to 0, empties the cell and
    leaves everything else as it was. *)
Theorem kill_piece_raises_or_removes (b : Board) (index : Z) :
  (getitem (board b) index = None ->
   kill_piece index b = Raised ArrayIndexOutOfBounds b) /\
  (getitem (board b) index = Some 0 ->
   kill_piece index b = Raised KillNonExistentPiece b) /\
  (forall p,
      getitem (board b) index = Some p -> p <> 0 -> made_moves b = [] ->
      kill_piece index b = Raised ListIndexOutOfRange b) /\
  (forall p h e,
      getitem (board b) index = Some p -> p <> 0 -> made_moves b = h ++ [e] ->
      exists cells,
        setitem (board b) index 0 = Some cells /\
        kill_piece index b =
        Done tt
          (mkBoard cells (current_side b)
                   (h ++ [MadeMove (old_position e) (new_position e)
                                   (kill_positions e ++ [(index, p)])
                                   (made_king e)
                                   (saved_moves_without_kills e)])
                   (is_playing b) (winner b) 0)).
Proof.
  split; [|split; [|split]].
  - intros Hnone. unfold kill_piece, bind, read_cell. now rewrite Hnone.
  - intros H0. apply getitem_Some in H0 as (k & Hk & Hv).
    unfold kill_piece. run_with (read_cell_Done _ _ _ _ Hk Hv). reflexivity.
  - intros p Hp Hne Hh. apply getitem_Some in Hp as (k & Hk & Hv).
    unfold kill_piece. run_with (read_cell_Done _ _ _ _ Hk Hv).
    apply Z.eqb_neq in Hne. rewrite Hne.
    unfold bind, top_entry. now rewrite Hh.
  - intros p h e Hp Hne Hh. apply getitem_Some in Hp as (k & Hk & Hv).
    exists (<[k:=0]> (board b)). split; [now apply setitem_Some|].
    now apply kill_piece_run.
Qed.

Lemma kill_piece_raises_or_removes_witness :
  kill_piece 64 initial_board = Raised ArrayIndexOutOfBounds initial_board /\
  kill_piece 0 initial_board = Raised KillNonExistentPiece initial_board /\
  kill_piece 1 initial_board = Raised ListIndexOutOfRange initial_board /\
  exists cells,
    setitem (board reached_top_row) 1 0 = Some cells /\
    kill_piece 1 reached_top_row
    = Done tt (mkBoard cells RED [MadeMove 8 1 [(1, 1)] false 0] true None 0).
Proof.
  destruct (kill_piece_raises_or_removes initial_board 64) as (H1 & _).
  destruct (kill_piece_raises_or_removes initial_board 0) as (_ & H2 & _).
  destruct (kill_piece_raises_or_removes initial_board 1) as (_ & _ & H3 & _).
  destruct (kill_piece_raises_or_removes reached_top_row 1) as (_ & _ & _ & H4).
  split; [apply H1; reflexivity|].
  split; [apply H2; reflexivity|].
  split; [apply (H3 (-1)); [reflexivity|discriminate|reflexivity]|].
  apply (H4 1 [] (MadeMove 8 1 [] false 0)); [reflexivity|discriminate|reflexivity].
Defined.

(** X2: [move] and [kill_piece] are all-or-nothing: whenever one of them
    raises, for whatever reason (an index out of bounds included), the
    object is exactly as it was before the call. *)
Theorem move_and_kill_piece_all_or_nothing :
  (forall b b' old_index new_index e,
      move old_index new_index b = Raised e b' -> b' = b) /\
  (forall b b' index e,
      kill_piece index b = Raised e b' -> b' = b).
Proof.
  split.
  - intros b b' o n e H.
    destruct (getitem (board b) n) as [d|] eqn:Hn.
    2:{ unfold move, bind, read_cell in H. rewrite Hn in H. now inversion H. }
    destruct (Z.eq_dec d 0) as [->|Hd].
    2:{ apply getitem_Some in Hn as (kn & Hkn & Hv).
        unfold move in H. run_with (read_cell_Done _ _ _ _ Hkn Hv) in H.
        apply Z.eqb_neq in Hd. rewrite Hd in H. now inversion H. }
    destruct (getitem (board b) o) as [p|] eqn:Ho.
    2:{ apply getitem_Some in Hn as (kn & Hkn & Hv).
        unfold move in H. run_with (read_cell_Done _ _ _ _ Hkn Hv) in H.
        rewrite Z.eqb_refl in H. cbv beta iota delta [negb] in H.
        unfold bind, read_cell in H. rewrite Ho in H. now inversion H. }
    apply getitem_Some in Hn as (kn & Hkn & Hvn).
    apply getitem_Some in Ho as (ko & Hko & Hvo).
    destruct (Z.eq_dec p 0) as [->|Hp].
    + unfold move in H. run_with (read_cell_Done _ _ _ _ Hkn Hvn) in H.
      rewrite Z.eqb_refl in H. cbv beta iota delta [negb] in H.
      run_with (read_cell_Done _ _ _ _ Hko Hvo) in H. now inversion H.
    + rewrite (move_run b o n ko kn p) in H by assumption. discriminate.
  - intros b b' i e H.
    destruct (getitem (board b) i) as [p|] eqn:Hi.
    2:{ unfold kill_piece, bind, read_cell in H. rewrite Hi in H.
        now inversion H. }
    apply getitem_Some in Hi as (k & Hk & Hv).
    destruct (Z.eq_dec p 0) as [->|Hp].
    { unfold kill_piece in H. run_with (read_cell_Done _ _ _ _ Hk Hv) in H.
      now inversion H. }
    destruct (unsnoc (made_moves b)) as [[h x]|] eqn:Hu.
    + apply unsnoc_Some in Hu.
      rewrite (kill_piece_run b i k p h x) in H by assumption. discriminate.
    + unfold kill_piece in H. run_with (read_cell_Done _ _ _ _ Hk Hv) in H.
      apply Z.eqb_neq in Hp. rewrite Hp in H.
      unfold bind, top_entry in H. rewrite Hu in H. now inversion H.
Qed.

Lemma move_and_kill_piece_all_or_nothing_witness :
  (move 64 0 initial_board
   = Raised ArrayIndexOutOfBounds (state_of (move 64 0 initial_board)) /\
   state_of (move 64 0 initial_board) = initial_board) /\
  (kill_piece 1 initial_board
   = Raised ListIndexOutOfRange (state_of (kill_piece 1 initial_board)) /\
   state_of (kill_piece 1 initial_board) = initial_board).
Proof.
  destruct move_and_kill_piece_all_or_nothing as [Hm Hk].
  split; (split; [reflexivity|]).
  - apply (Hm initial_board _ 64 0 ArrayIndexOutOfBounds). reflexivity.
  - apply (Hk initial_board _ 1 ListIndexOutOfRange). reflexivity.
Defined.

Lemma at_edges_range (index : Z) :
  at_edges index = true <-> 0 <= index <= 7 \/ 56 <= index <= 63.
Proof.
  unfold at_edges. rewrite orb_true_iff, !Z.eqb_eq.
  pose proof (Z.div_mod index 8 ltac:(lia)) as Hdm.
  pose proof (Z.mod_pos_bound index 8 ltac:(lia)) as Hmod.
  split; intros [H|H]; lia.
Qed.

(** X3: [make_king index] returns normally exactly when [index] lies in
    0..7 or in 56..63 (a negative index is refused, although it addresses a
    cell), the cell exists and holds a piece, and the history is not
    empty. *)
Theorem make_king_returns_iff (b : Board) (index : Z) :
  (exists b', make_king index b = Done tt b') <->
  (0 <= index <= 7 \/ 56 <= index <= 63) /\
  (exists p, getitem (board b) index = Some p /\ p <> 0) /\
  made_moves b <> [].
Proof.
  split.
  - intros [b' H].
    apply make_king_Done_inv in H as (k & p & h & e & He & Hk & Hv & Hp & Hh & _).
    split; [now apply at_edges_range|]. split.
    + exists p. split; [|assumption]. apply getitem_Some. now exists k.
    + rewrite Hh. now destruct h.
  - intros (He & (p & Hp & Hne) & Hh).
    apply at_edges_range in He. apply getitem_Some in Hp as (k & Hk & Hv).
    destruct (unsnoc (made_moves b)) as [[h e]|] eqn:Hu.
    + apply unsnoc_Some in Hu. eexists. now apply (make_king_run b index k p h e).
    + apply unsnoc_None in Hu. contradiction.
Qed.

Lemma make_king_returns_iff_witness :
  let b := mkBoard (<[63%nat:=1]> (replicate 64 0)) RED
                   [MadeMove 54 (-1) [] false 0] true None 1 in
  getitem (board b) (-1) = Some 1 /\
  getitem (board b) 63 = Some 1 /\
  (exists b', make_king 63 b = Done tt b') /\
  ~ (exists b', make_king (-1) b = Done tt b').
Proof.
  intros b. split; [reflexivity|]. split; [reflexivity|]. split.
  - apply (make_king_returns_iff b 63). split; [lia|].
    split; [exists 1; split; [reflexivity|discriminate]|discriminate].
  - intros H. apply (make_king_returns_iff b (-1)) in H as [H _]. lia.
Defined.

(** ** Boards of 64 cells stay boards of 64 cells *)

Lemma in_bounds_py_norm (n : nat) (i : Z) :
  in_bounds n i <-> exists k, py_norm n i = Some k.
Proof.
  unfold in_bounds, py_norm. split.
  - intros H.
    destruct (Z.leb_spec 0 i), (Z.ltb_spec i (Z.of_nat n)); simpl;
      try (eexists; reflexivity);
      destruct (Z.leb_spec (- Z.of_nat n) i), (Z.ltb_spec i 0); simpl;
        try (eexists; reflexivity); lia.
  - intros [k H].
    destruct (Z.leb_spec 0 i), (Z.ltb_spec i (Z.of_nat n)); simpl in H;
      try lia;
      destruct (Z.leb_spec (- Z.of_nat n) i), (Z.ltb_spec i 0); simpl in H;
        try lia; discriminate.
Qed.

Lemma triple_read_cell_in_bounds (P : Board -> Prop) (index : Z) :
  triple P (read_cell index)
         (fun _ b => P b /\ in_bounds (length (board b)) index) P.
Proof.
  intros b HP. unfold read_cell.
  destruct (getitem (board b) index) as [v|] eqn:Hg; [|assumption].
  split; [assumption|]. apply in_bounds_py_norm.
  apply getitem_Some in Hg as (k & Hk & _). now exists k.
Qed.

Lemma triple_write_cell_length (P : Board -> Prop) (index v : Z) :
  length_blind P -> triple P (write_cell index v) (fun _ => P) P.
Proof.
  intros Hblind b HP. unfold write_cell, setitem.
  destruct (py_norm (length (board b)) index); [|assumption].
  apply Hblind; [apply length_insert|assumption].
Qed.

Lemma standard_length_blind : length_blind standard.
Proof. intros b cells Hlen [H1 H2]. split; simpl; [congruence|assumption]. Qed.

Lemma init_standard (layout : option (list Z)) (side : PieceTypes) (b : Board) :
  init layout side = Some b ->
  (forall cells, layout = Some cells -> length cells = 64%nat) ->
  standard b.
Proof.
  unfold init. intros H Hlen. destruct layout as [cells|].
  - destruct (forallb in_int_range cells); [|discriminate].
    inversion H; subst. split; simpl; [now apply Hlen|constructor].
  - inversion H; subst. split; simpl; [reflexivity|constructor].
Qed.

Lemma move_standard (old_index new_index : Z) :
  triple standard (move old_index new_index) (fun _ => standard) standard.
Proof.
  unfold move.
  eapply triple_bind; [apply triple_read_cell_in_bounds|]. intros dest.
  destruct (negb (dest =? 0)); [apply triple_raise; tauto|].
  apply triple_bind
    with (Q := fun _ b => standard b /\
                          in_bounds (length (board b)) new_index /\
                          in_bounds (length (board b)) old_index).
  { intros b [HP Hn]. unfold read_cell.
    destruct (getitem (board b) old_index) as [v|] eqn:Hg; [|assumption].
    split; [assumption|]. split; [assumption|].
    apply in_bounds_py_norm.
    apply getitem_Some in Hg as (k & Hk & _). now exists k. }
  intros origin.
  destruct (origin =? 0); [apply triple_raise; tauto|].
  set (J := fun b => standard b /\
                     in_bounds (length (board b)) new_index /\
                     in_bounds (length (board b)) old_index).
  assert (HJ : length_blind J).
  { intros b cells Hlen (HP & H1 & H2). unfold J. simpl. rewrite Hlen.
    split; [now apply standard_length_blind|]. now split. }
  apply triple_weaken with (P := J) (Q := fun _ => standard) (E := J);
    try tauto; [unfold J; tauto|].
  eapply triple_bind; [apply triple_read_cell|]. intros p.
  eapply triple_bind; [now apply triple_write_cell_length|]. intros ?.
  eapply triple_bind; [now apply triple_write_cell_length|]. intros ?.
  intros b ([Hlen Hh] & Hn & Ho). split; simpl; [assumption|].
  apply Forall_app. split; [assumption|].
  constructor; [|constructor]. rewrite Hlen in Hn, Ho.
  split; [assumption|]. split; [assumption|]. constructor.
Qed.

Lemma kill_piece_standard (index : Z) :
  triple standard (kill_piece index) (fun _ => standard) standard.
Proof.
  unfold kill_piece.
  eapply triple_bind; [apply triple_read_cell_in_bounds|]. intros target.
  destruct (target =? 0); [apply triple_raise; tauto|].
  apply triple_weaken
    with (P := fun b => standard b /\ in_bounds (length (board b)) index)
         (Q := fun _ => standard)
         (E := fun b => standard b /\ in_bounds (length (board b)) index);
    try tauto.
  eapply triple_bind; [apply triple_top_entry|]. intros [h e].
  intros b [[[Hlen Hh] Hin] Hm]. simpl in Hm.
  assert (Hh' := Hh). rewrite Hm in Hh'.
  apply Forall_app in Hh' as [Hh' He].
  inversion He as [|? ? (Ho & Hn & Hk) _]; subst.
  assert (Hstd : forall cells p n,
             length cells = 64%nat ->
             standard (mkBoard cells (current_side b)
                         (h ++ [MadeMove (old_position e) (new_position e)
                                  (kill_positions e ++ [(index, p)])
                                  (made_king e) (saved_moves_without_kills e)])
                         (is_playing b) (winner b) n)).
  { intros cells p n Hc. split; simpl; [assumption|].
    apply Forall_app. split; [assumption|]. constructor; [|constructor].
    split; [assumption|]. split; [assumption|]. simpl.
    apply Forall_app. split; [assumption|]. constructor; [|constructor].
    simpl. now rewrite <- Hlen. }
  unfold bind, read_cell, modify, write_cell. simpl.
  destruct (getitem (board b) index) as [p|] eqn:Hg; [|now split].
  simpl. unfold setitem.
  destruct (py_norm (length (board b)) index);
    unfold set_moves_without_kills, set_made_moves, set_board; simpl.
  - apply Hstd. now rewrite length_insert.
  - split; [now apply Hstd|assumption].
Qed.

Lemma make_king_standard (index : Z) :
  triple standard (make_king index) (fun _ => standard) standard.
Proof.
  unfold make_king, piece.
  destruct (negb _); [now apply triple_raise|].
  eapply triple_bind; [apply triple_read_cell|]. intros p.
  destruct (p =? 0); [now apply triple_raise|].
  eapply triple_bind; [apply triple_read_cell|]. intros v.
  eapply triple_bind;
    [apply triple_write_cell_length, standard_length_blind|]. intros ?.
  eapply triple_bind; [apply triple_top_entry|]. intros [h e].
  intros b [[Hlen Hh] Hm]. simpl in Hm. rewrite Hm in Hh.
  apply Forall_app in Hh as [Hh He].
  inversion He as [|? ? (Ho & Hn & Hk) _]; subst.
  split; simpl; [assumption|].
  apply Forall_app. split; [assumption|]. constructor; [|constructor].
  split; [assumption|]. now split.
Qed.

Lemma undo_move_standard :
  triple standard undo_move (fun _ => standard) standard.
Proof.
  unfold undo_move.
  apply triple_bind with (Q := fun _ => standard).
  { intros b [Hlen Hh]. unfold pop_made_move.
    destruct (unsnoc (made_moves b)) as [[h e]|] eqn:Hu; [|now split].
    apply unsnoc_Some in Hu. rewrite Hu in Hh.
    apply Forall_app in Hh as [Hh _]. now split. }
  intros e.
  pose proof standard_length_blind as HJ.
  eapply triple_bind with (Q := fun _ => standard).
  { destruct (made_king e); [|now apply triple_ret].
    eapply triple_bind; [apply triple_read_cell|]. intros v.
    now apply triple_write_cell_length. }
  intros ?. eapply triple_bind with (Q := fun _ => standard).
  { apply triple_for_each. intros ip. now apply triple_write_cell_length. }
  intros ?. eapply triple_bind; [apply triple_read_cell|]. intros p.
  eapply triple_bind; [now apply triple_write_cell_length|]. intros ?.
  eapply triple_bind; [now apply triple_write_cell_length|]. intros ?.
  intros b [Hlen Hh]. now split.
Qed.

(** Writing captures back never fails when their indices address cells. *)
Lemma restore_returns (log : list (Z * Z)) :
  forall b,
    Forall (fun ip => in_bounds (length (board b)) (fst ip)) log ->
    exists cells,
      length cells = length (board b) /\
      for_each (fun ip => write_cell (fst ip) (snd ip)) log b
      = Done tt (set_board cells b).
Proof.
  induction log as [|[c p] log IH]; intros b Hlog.
  - exists (board b). split; [reflexivity|]. now destruct b.
  - inversion Hlog as [|? ? Hc Hrest]; subst. simpl in Hc.
    apply in_bounds_py_norm in Hc as [k Hk].
    simpl for_each. run_with (write_cell_Done c p b k Hk).
    destruct (IH (set_board (<[k:=p]> (board b)) b)) as (cells & Hlen & Hrun).
    { simpl. now rewrite length_insert. }
    exists cells. split.
    + rewrite Hlen. simpl. apply length_insert.
    + exact Hrun.
Qed.

Lemma is_draw_standard (b : Board) :
  standard b -> standard (state_of (is_draw b)).
Proof. rewrite is_draw_run. now destruct (draws b). Qed.

Section StandardBoards.

Variable generate_sliding_moves : Z -> Z -> list Z -> list Move.t.
Variable generate_attacking_moves : Z -> Z -> list Z -> list Move.t.

Abbreviation update := (update_state generate_sliding_moves generate_attacking_moves).
Abbreviation evaluate := (score generate_sliding_moves generate_attacking_moves).

Lemma update_state_standard (b : Board) :
  standard b -> standard (state_of (update b)).
Proof.
  intros [Hlen Hh].
  destruct (update_state_frame generate_sliding_moves
              generate_attacking_moves b) as (Hb & _ & Hm & _).
  unfold standard. now rewrite Hb, Hm.
Qed.

(** X5: a board of 64 cells whose history mentions only cells of the
    board stays one under every method, whether the method returns
    normally or raises: no method changes the number of cells ([clear] and
    [reset] set it to 64), and every index a method logs in the history
    was checked against the array first. *)
Theorem standard_is_kept (b : Board) :
  standard b ->
  standard (state_of (reset b)) /\
  standard (state_of (clear b)) /\
  (forall old_index new_index,
      standard (state_of (move old_index new_index b))) /\
  (forall index, standard (state_of (kill_piece index b))) /\
  (forall index, standard (state_of (make_king index b))) /\
  standard (state_of (undo_move b)) /\
  standard (state_of (is_draw b)) /\
  standard (state_of (update b)) /\
  standard (state_of (evaluate b)).
Proof.
  intros Hstd.
  split; [split; simpl; [reflexivity|constructor]|].
  split; [destruct Hstd as [_ Hh]; split; simpl; [reflexivity|assumption]|].
  split; [intros o n; now apply (triple_state_of _ _ (move_standard o n))|].
  split; [intros i; now apply (triple_state_of _ _ (kill_piece_standard i))|].
  split; [intros i; now apply (triple_state_of _ _ (make_king_standard i))|].
  split; [now apply (triple_state_of _ _ undo_move_standard)|].
  split; [now apply is_draw_standard|].
  split; [now apply update_state_standard|].
  rewrite score_run. simpl. now apply update_state_standard.
Qed.

End StandardBoards.

Lemma standard_is_kept_witness :
  standard initial_board /\
  standard (state_of (move 40 33 initial_board)) /\
  standard (state_of (make_king 1 initial_board)) /\
  standard (state_of (score one_step no_moves initial_board)).
Proof.
  assert (H0 : standard initial_board).
  { apply (init_standard None BLUE); [reflexivity|discriminate]. }
  destruct (standard_is_kept one_step no_moves initial_board H0)
    as (_ & _ & Hm & _ & Hk & _ & _ & _ & Hs).
  split; [exact H0|]. split; [apply Hm|]. split; [apply Hk|exact Hs].
Defined.

(** X4: on a board of 64 cells whose history mentions only cells of the
    board, [undo_move] raises exactly when the history is empty, and then
    changes nothing; otherwise it returns normally, removes the top entry
    from the history, flips the side to move, sets [moves_without_kills]
    to the value saved in that entry, and leaves [is_playing] and [winner]
    as they were. *)
Theorem undo_move_returns (b : Board) :
  standard b ->
  (made_moves b = [] -> undo_move b = Raised PopFromEmptyList b) /\
  (forall h e,
      made_moves b = h ++ [e] ->
      exists cells,
        length cells = 64%nat /\
        undo_move b =
        Done tt (mkBoard cells (flip_side (current_side b)) h
                         (is_playing b) (winner b)
                         (saved_moves_without_kills e))).
Proof.
  intros [Hlen Hh]. split.
  - intros Hnil. unfold undo_move, bind, pop_made_move. now rewrite Hnil.
  - intros h e Hm. rewrite Hm in Hh. apply Forall_app in Hh as [_ He].
    inversion He as [|? ? (Ho & Hn & Hk) _]; subst.
    rewrite <- Hlen in Ho, Hn.
    apply in_bounds_py_norm in Ho as [ko Hko].
    apply in_bounds_py_norm in Hn as [kn Hkn].
    assert (Hknlt : (kn < length (board b))%nat) by now apply py_norm_lt in Hkn.
    destruct (lookup_lt_is_Some_2 (board b) kn Hknlt) as [v Hv].
    set (cells1 := if made_king e then <[kn:=v / 2]> (board b) else board b).
    assert (Hlen1 : length cells1 = length (board b)).
    { unfold cells1. destruct (made_king e); [apply length_insert|reflexivity]. }
    destruct (restore_returns (kill_positions e)
                (set_board cells1 (set_made_moves h b)))
      as (cells2 & Hlen2 & Hrun).
    { simpl. rewrite Hlen1, Hlen. exact Hk. }
    simpl in Hlen2. rewrite Hlen1 in Hlen2.
    assert (Hknlt2 : (kn < length cells2)%nat) by now rewrite Hlen2.
    destruct (lookup_lt_is_Some_2 cells2 kn Hknlt2) as [q Hq].
    exists (<[ko:=q]> (<[kn:=0]> cells2)). split.
    + now rewrite !length_insert, Hlen2.
    + apply (undo_move_run b h e ko kn v q cells1 cells2); try assumption.
      reflexivity.
Qed.

Lemma undo_move_returns_witness :
  undo_move initial_board = Raised PopFromEmptyList initial_board /\
  exists cells,
    length cells = 64%nat /\
    undo_move (state_of (move 40 33 initial_board))
    = Done tt (mkBoard cells BLUE [] true None 0).
Proof.
  assert (H0 : standard initial_board).
  { apply (init_standard None BLUE); [reflexivity|discriminate]. }
  assert (H1 : standard (state_of (move 40 33 initial_board))).
  { now apply (triple_state_of _ _ (move_standard 40 33)). }
  split.
  - now apply (undo_move_returns initial_board H0).
  - destruct (undo_move_returns _ H1) as [_ H].
    apply (H [] (MadeMove 40 33 [] false 0)). reflexivity.
Defined.

(** ** The counter and the status fields *)

(** X6: on every board the class produces (by the constructor, or left
    behind by any method, normally or on an exception),
    [moves_without_kills] is at least 0, and so is every counter saved in
    the history. *)
Theorem counter_never_negative
        (generate_sliding_moves generate_attacking_moves :
           Z -> Z -> list Z -> list Move.t) (b : Board) :
  reachable generate_sliding_moves generate_attacking_moves b ->
  0 <= moves_without_kills b /\
  Forall (fun e => 0 <= saved_moves_without_kills e) (made_moves b).
Proof. apply reachable_counters_nonneg. Qed.

Lemma counter_never_negative_witness :
  0 <= moves_without_kills
         (state_of (undo_move (state_of (kill_piece 17
            (state_of (move 40 33 initial_board)))))) /\
  Forall (fun e => 0 <= saved_moves_without_kills e)
         (made_moves
            (state_of (undo_move (state_of (kill_piece 17
               (state_of (move 40 33 initial_board))))))).
Proof.
  apply (counter_never_negative one_step no_moves).
  apply reach_undo_move, reach_kill_piece, reach_move.
  apply (reach_init _ _ None BLUE). reflexivity.
Defined.

Lemma status_only_cell_blind (P : Board -> Prop) :
  status_only P -> cell_blind P.
Proof. intros H b cells HP. now apply (H b). Qed.

Lemma triple_pop_made_move (P : Board -> Prop) :
  status_only P -> triple P pop_made_move (fun _ => P) P.
Proof.
  intros H b HP. unfold pop_made_move.
  destruct (unsnoc (made_moves b)) as [[h e]|]; [|assumption].
  now apply (H b).
Qed.

Lemma triple_top_entry_same (P : Board -> Prop) :
  triple P top_entry (fun _ => P) P.
Proof.
  intros b HP. unfold top_entry. now destruct (unsnoc (made_moves b)).
Qed.

Lemma triple_modify_status (P : Board -> Prop) (f : Board -> Board) :
  status_only P ->
  (forall b, is_playing (f b) = is_playing b /\ winner (f b) = winner b) ->
  triple P (modify f) (fun _ => P) P.
Proof.
  intros H Hf b HP. unfold modify.
  destruct (Hf b) as [Hp Hw].
  specialize (H b (board (f b)) (current_side (f b)) (made_moves (f b))
                (moves_without_kills (f b)) HP).
  rewrite <- Hp, <- Hw in H. now destruct (f b).
Qed.

Lemma move_status (P : Board -> Prop) (old_index new_index : Z) :
  status_only P ->
  triple P (move old_index new_index) (fun _ => P) P.
Proof.
  intros H. pose proof (status_only_cell_blind P H) as Hc. unfold move.
  eapply triple_bind; [apply triple_read_cell|]. intros dest.
  destruct (negb (dest =? 0)); [now apply triple_raise|].
  eapply triple_bind; [apply triple_read_cell|]. intros origin.
  destruct (origin =? 0); [now apply triple_raise|].
  eapply triple_bind; [apply triple_read_cell|]. intros p.
  eapply triple_bind; [now apply triple_write_cell|]. intros ?.
  eapply triple_bind; [now apply triple_write_cell|]. intros ?.
  eapply triple_bind; [now apply triple_modify_status|]. intros ?.
  eapply triple_bind; [now apply triple_modify_status|]. intros ?.
  now apply triple_modify_status.
Qed.

Lemma kill_piece_status (P : Board -> Prop) (index : Z) :
  status_only P -> triple P (kill_piece index) (fun _ => P) P.
Proof.
  intros H. pose proof (status_only_cell_blind P H) as Hc. unfold kill_piece.
  eapply triple_bind; [apply triple_read_cell|]. intros target.
  destruct (target =? 0); [now apply triple_raise|].
  apply triple_bind with (Q := fun _ => P); [apply triple_top_entry_same|].
  intros [h e].
  eapply triple_bind; [apply triple_read_cell|]. intros p.
  eapply triple_bind; [now apply triple_modify_status|]. intros ?.
  eapply triple_bind; [now apply triple_modify_status|]. intros ?.
  now apply triple_write_cell.
Qed.

Lemma make_king_status (P : Board -> Prop) (index : Z) :
  status_only P -> triple P (make_king index) (fun _ => P) P.
Proof.
  intros H. pose proof (status_only_cell_blind P H) as Hc.
  unfold make_king, piece.
  destruct (negb _); [now apply triple_raise|].
  eapply triple_bind; [apply triple_read_cell|]. intros p.
  destruct (p =? 0); [now apply triple_raise|].
  eapply triple_bind; [apply triple_read_cell|]. intros v.
  eapply triple_bind; [now apply triple_write_cell|]. intros ?.
  apply triple_bind with (Q := fun _ => P); [apply triple_top_entry_same|].
  intros [h e]. now apply triple_modify_status.
Qed.

Lemma undo_move_status (P : Board -> Prop) :
  status_only P -> triple P undo_move (fun _ => P) P.
Proof.
  intros H. pose proof (status_only_cell_blind P H) as Hc. unfold undo_move.
  eapply triple_bind; [now apply triple_pop_made_move|]. intros e.
  apply triple_bind with (Q := fun _ => P).
  { destruct (made_king e); [|now apply triple_ret].
    eapply triple_bind; [apply triple_read_cell|]. intros v.
    now apply triple_write_cell. }
  intros ?. apply triple_bind with (Q := fun _ => P).
  { apply triple_for_each. intros ip. now apply triple_write_cell. }
  intros ?. eapply triple_bind; [apply triple_read_cell|]. intros p.
  eapply triple_bind; [now apply triple_write_cell|]. intros ?.
  eapply triple_bind; [now apply triple_write_cell|]. intros ?.
  eapply triple_bind; [now apply triple_modify_status|]. intros ?.
  now apply triple_modify_status.
Qed.

Lemma same_status_only (b0 : Board) :
  status_only (fun b => is_playing b = is_playing b0 /\ winner b = winner b0).
Proof. now intros b cells side history counter H. Qed.

(** X7: [move], [kill_piece], [make_king], [undo_move] and [clear] never
    touch [is_playing] and [winner], whether they return normally or
    raise.  In particular a game that [update_state] has declared over
    stays over, with the same winner, after the move that ended it is
    undone. *)
Theorem mutators_keep_status (b : Board) :
  (forall old_index new_index,
      is_playing (state_of (move old_index new_index b)) = is_playing b /\
      winner (state_of (move old_index new_index b)) = winner b) /\
  (forall index,
      is_playing (state_of (kill_piece index b)) = is_playing b /\
      winner (state_of (kill_piece index b)) = winner b) /\
  (forall index,
      is_playing (state_of (make_king index b)) = is_playing b /\
      winner (state_of (make_king index b)) = winner b) /\
  (is_playing (state_of (undo_move b)) = is_playing b /\
   winner (state_of (undo_move b)) = winner b) /\
  (is_playing (state_of (clear b)) = is_playing b /\
   winner (state_of (clear b)) = winner b).
Proof.
  pose proof (same_status_only b) as H.
  split; [intros o n|split; [intros i|split; [intros i|split]]].
  - now apply (triple_state_of _ _ (move_status _ o n H)).
  - now apply (triple_state_of _ _ (kill_piece_status _ i H)).
  - now apply (triple_state_of _ _ (make_king_status _ i H)).
  - now apply (triple_state_of _ _ (undo_move_status _ H)).
  - now split.
Qed.

Lemma mutators_keep_status_witness :
  let over := state_of (update_state one_step no_moves
                          (state_of (move 9 0
                             (mkBoard (<[9%nat:=1]> (replicate 64 0)) BLUE []
                                      true None 0)))) in
  is_playing over = false /\ winner over = Some 1 /\
  value_of (undo_move over) = Some tt /\
  is_playing (state_of (undo_move over)) = false /\
  winner (state_of (undo_move over)) = Some 1.
Proof.
  intros over.
  destruct (mutators_keep_status over) as (_ & _ & _ & [Hp Hw] & _).
  split; [reflexivity|]. split; [reflexivity|]. split; [reflexivity|].
  split; [rewrite Hp|rewrite Hw]; reflexivity.
Defined.

Lemma game_over_status_only : status_only (fun b => is_playing b = false).
Proof. now intros b cells side history counter H. Qed.

Section GameOver.

Variable generate_sliding_moves : Z -> Z -> list Z -> list Move.t.
Variable generate_attacking_moves : Z -> Z -> list Z -> list Move.t.

Abbreviation update := (update_state generate_sliding_moves generate_attacking_moves).
Abbreviation evaluate := (score generate_sliding_moves generate_attacking_moves).

Lemma update_state_over (b : Board) :
  is_playing b = false -> is_playing (state_of (update b)) = false.
Proof.
  intros H. rewrite update_state_run. simpl.
  destruct (draws b); [reflexivity|].
  now destruct (finds_a_move _ _ _ _ _).
Qed.

(** X8: a game that is over stays over: when [is_playing] is [False],
    it is still [False] after [move], [kill_piece], [make_king],
    [undo_move], [clear], [is_draw], [update_state] and [score], whether
    they return normally or raise.  Only [reset] (and the constructor)
    sets it to [True]. *)
Theorem game_over_is_absorbing (b : Board) :
  is_playing b = false ->
  (forall old_index new_index,
      is_playing (state_of (move old_index new_index b)) = false) /\
  (forall index, is_playing (state_of (kill_piece index b)) = false) /\
  (forall index, is_playing (state_of (make_king index b)) = false) /\
  is_playing (state_of (undo_move b)) = false /\
  is_playing (state_of (clear b)) = false /\
  is_playing (state_of (is_draw b)) = false /\
  is_playing (state_of (update b)) = false /\
  is_playing (state_of (evaluate b)) = false /\
  is_playing (state_of (reset b)) = true.
Proof.
  intros Hover. pose proof game_over_status_only as H.
  split; [intros o n; now apply (triple_state_of _ _ (move_status _ o n H))|].
  split; [intros i; now apply (triple_state_of _ _ (kill_piece_status _ i H))|].
  split; [intros i; now apply (triple_state_of _ _ (make_king_status _ i H))|].
  split; [now apply (triple_state_of _ _ (undo_move_status _ H))|].
  split; [exact Hover|].
  split; [rewrite is_draw_run; now destruct (draws b)|].
  split; [now apply update_state_over|].
  split; [rewrite score_run; simpl; now apply update_state_over|].
  reflexivity.
Qed.

End GameOver.

Lemma game_over_is_absorbing_witness :
  is_playing won_position = false /\
  value_of (move 9 0 won_position) = Some tt /\
  is_playing (state_of (move 9 0 won_position)) = false /\
  is_playing (state_of (score one_step no_moves won_position)) = false.
Proof.
  destruct (game_over_is_absorbing one_step no_moves won_position)
    as (Hm & _ & _ & _ & _ & _ & _ & Hs & _); [reflexivity|].
  split; [reflexivity|]. split; [reflexivity|].
  split; [apply Hm|exact Hs].
Defined.

(** ** Draw detection *)

Lemma getitem_too_short {A : Type} (l : list A) (i : Z) :
  i < - Z.of_nat (length l) -> getitem l i = None.
Proof.
  intros H. unfold getitem, py_norm.
  destruct (Z.leb_spec 0 i); [lia|]. simpl.
  destruct (Z.leb_spec (- Z.of_nat (length l)) i); [lia|]. reflexivity.
Qed.

Lemma repetition_short (h : list made_move) :
  (length h < 6)%nat -> repetition h = None.
Proof.
  intros H. unfold repetition.
  rewrite (getitem_too_short h (-6)) by lia.
  now destruct (getitem h (-2)), (getitem h (-4)).
Qed.

Lemma getitem_from_end {A : Type} (h l : list A) (k : nat) :
  (k < length l)%nat ->
  getitem (h ++ l) (- Z.of_nat (length l) + Z.of_nat k) = l !! k.
Proof.
  intros Hk. unfold getitem, py_norm. rewrite length_app.
  destruct (Z.leb_spec 0 (- Z.of_nat (length l) + Z.of_nat k)); [lia|].
  simpl.
  destruct (Z.leb_spec (- Z.of_nat (length h + length l))
                       (- Z.of_nat (length l) + Z.of_nat k)); [|lia].
  destruct (Z.ltb_spec (- Z.of_nat (length l) + Z.of_nat k) 0); [|lia].
  simpl.
  replace (Z.to_nat (- Z.of_nat (length l) + Z.of_nat k
                     + Z.of_nat (length h + length l)))
    with (length h + k)%nat by lia.
  rewrite lookup_app_r by lia. f_equal. lia.
Qed.

(** X9: with red to move, [is_draw] reports a draw exactly when
    [moves_without_kills] is at least 40.  With blue to move and fewer than
    six entries in the history it never reports a draw, whatever the
    counter: the repetition test raises [IndexError] and the handler sets
    the flag to [False].  In both cases nothing but [winner] and
    [is_playing] is touched, and nothing at all when no draw is
    reported. *)
Theorem is_draw_by_counter (b : Board) :
  (current_side b = RED ->
   is_draw b = Done (40 <=? moves_without_kills b)
                    (if 40 <=? moves_without_kills b
                     then set_is_playing false (set_winner None b) else b)) /\
  (current_side b = BLUE -> (length (made_moves b) < 6)%nat ->
   is_draw b = Done false b).
Proof.
  split.
  - intros Hs. rewrite is_draw_run. unfold draws. now rewrite Hs.
  - intros Hs Hlen. rewrite is_draw_run. unfold draws.
    now rewrite Hs, repetition_short.
Qed.

Lemma is_draw_by_counter_witness :
  is_draw (mkBoard default_arrange_pieces RED [] true None 40)
  = Done true (mkBoard default_arrange_pieces RED [] false None 40) /\
  is_draw (mkBoard default_arrange_pieces BLUE [] true None 40)
  = Done false (mkBoard default_arrange_pieces BLUE [] true None 40).
Proof.
  split.
  - apply (is_draw_by_counter
             (mkBoard default_arrange_pieces RED [] true None 40)).
    reflexivity.
  - apply (is_draw_by_counter
             (mkBoard default_arrange_pieces BLUE [] true None 40));
      [reflexivity|simpl; lia].
Defined.

(** X10: with blue to move and a history that ends with the six entries
    [e6; e5; e4; e3; e2; e1] (oldest first), [is_draw] reports a draw
    exactly when the sorted (origin, destination) pairs of [e2], [e4], [e6]
    are equal and those of [e1], [e3], [e5] are equal, or
    [moves_without_kills] is at least 40.  So a threefold repetition is a
    draw even with the counter at 0. *)
Theorem is_draw_by_repetition (b : Board) (h : list made_move)
        (e6 e5 e4 e3 e2 e1 : made_move) :
  current_side b = BLUE ->
  made_moves b = h ++ [e6; e5; e4; e3; e2; e1] ->
  let repeated :=
    same3 (sorted_pair e2) (sorted_pair e4) (sorted_pair e6)
    && same3 (sorted_pair e1) (sorted_pair e3) (sorted_pair e5) in
  let flag := repeated || (40 <=? moves_without_kills b) in
  is_draw b = Done flag (if flag
                         then set_is_playing false (set_winner None b)
                         else b).
Proof.
  intros Hs Hm repeated flag. rewrite is_draw_run. unfold draws.
  rewrite Hs, Hm. simpl side_eqb. cbv iota.
  assert (Hrep : repetition (h ++ [e6; e5; e4; e3; e2; e1]) = Some repeated).
  { unfold repetition.
    change (-2) with (- Z.of_nat (length [e6; e5; e4; e3; e2; e1]) + Z.of_nat 4).
    change (-4) with (- Z.of_nat (length [e6; e5; e4; e3; e2; e1]) + Z.of_nat 2).
    change (-6) with (- Z.of_nat (length [e6; e5; e4; e3; e2; e1]) + Z.of_nat 0).
    change (-1) with (- Z.of_nat (length [e6; e5; e4; e3; e2; e1]) + Z.of_nat 5).
    change (-3) with (- Z.of_nat (length [e6; e5; e4; e3; e2; e1]) + Z.of_nat 3).
    change (-5) with (- Z.of_nat (length [e6; e5; e4; e3; e2; e1]) + Z.of_nat 1).
    rewrite !getitem_from_end by (simpl; lia). reflexivity. }
  rewrite Hrep. unfold flag.
  now destruct repeated, (40 <=? moves_without_kills b).
Qed.

Lemma is_draw_by_repetition_witness :
  let h := [MadeMove 40 33 [] false 0; MadeMove 17 24 [] false 1;
            MadeMove 33 40 [] false 2; MadeMove 24 17 [] false 3;
            MadeMove 40 33 [] false 4; MadeMove 17 24 [] false 5] in
  is_draw (mkBoard default_arrange_pieces BLUE h true None 6)
  = Done true (mkBoard default_arrange_pieces BLUE h false None 6).
Proof.
  intros h.
  apply (is_draw_by_repetition
           (mkBoard default_arrange_pieces BLUE h true None 6) []
           (MadeMove 40 33 [] false 0) (MadeMove 17 24 [] false 1)
           (MadeMove 33 40 [] false 2) (MadeMove 24 17 [] false 3)
           (MadeMove 40 33 [] false 4) (MadeMove 17 24 [] false 5));
    reflexivity.
Defined.

(** ** The hash is a faithful key *)

Lemma str_int_injective (x y : Z) : str_int x = str_int y -> x = y.
Proof.
  unfold str_int. intros H.
  assert (Hparse : forall z,
             NilZero.int_of_string (NilZero.string_of_int (Z.to_int z))
             = Some (Z.to_int z)).
  { intros z. apply NilZero.isi; destruct z; simpl; try discriminate;
      intros E; inversion E as [E'];
      now apply DecimalPos.Unsigned.to_uint_nonnil in E'. }
  assert (E : Some (Z.to_int x) = Some (Z.to_int y)).
  { rewrite <- (Hparse x), <- (Hparse y). now rewrite H. }
  inversion E as [E'].
  rewrite <- (DecimalZ.of_to x), <- (DecimalZ.of_to y). now rewrite E'.
Qed.

Lemma string_of_uint_separator_free (d : Decimal.uint) :
  separator_free (NilEmpty.string_of_uint d).
Proof.
  induction d; simpl; try exact I;
    (split; [intros [E|E]; discriminate|assumption]).
Qed.

Lemma str_int_separator_free (z : Z) : separator_free (str_int z).
Proof.
  assert (Hu : forall d, separator_free (NilZero.string_of_uint d)).
  { intros d. destruct d; try apply string_of_uint_separator_free.
    simpl. split; [intros [E|E]; discriminate|exact I]. }
  unfold str_int. destruct (Z.to_int z) as [d|d]; simpl.
  - apply Hu.
  - split; [intros [E|E]; discriminate|apply Hu].
Qed.

Lemma str_int_nonempty (z : Z) : str_int z <> EmptyString.
Proof.
  unfold str_int. destruct z as [|p|p]; simpl; try discriminate.
  - pose proof (DecimalPos.Unsigned.to_uint_nonnil p) as H.
    now destruct (Pos.to_uint p).
Qed.

(** Two numbers followed by separators: the numbers and the rests agree. *)
Lemma separated_split (s1 : string) :
  forall s2 t1 t2 : string,
    separator_free s1 -> separator_free s2 ->
    separated t1 -> separated t2 ->
    (s1 ++ t1)%string = (s2 ++ t2)%string ->
    s1 = s2 /\ t1 = t2.
Proof.
  induction s1 as [|a s1 IH]; intros s2 t1 t2 H1 H2 Ht1 Ht2 E.
  - destruct s2 as [|a' s2]; [now split|].
    simpl in E. subst t1. simpl in Ht1. destruct H2 as [H2 _]. contradiction.
  - destruct s2 as [|a' s2].
    + simpl in E. subst t2. simpl in Ht2. destruct H1 as [H1 _]. contradiction.
    + simpl in E. inversion E as [[Ea E']]. subst a'.
      destruct H1 as [_ H1], H2 as [_ H2].
      destruct (IH s2 t1 t2 H1 H2 Ht1 Ht2 E') as [-> ->]. now split.
Qed.

Lemma string_app_assoc (a b c : string) :
  ((a ++ b) ++ c)%string = (a ++ (b ++ c))%string.
Proof. induction a as [|x a IH]; simpl; [reflexivity|now rewrite IH]. Qed.

Lemma printed_cons (x : Z) (l : list Z) :
  (String.concat ", " (map str_int (x :: l)) ++ "]")%string
  = (str_int x ++ printed_rest l)%string.
Proof.
  destruct l as [|y l]; [reflexivity|].
  change (String.concat ", " (map str_int (x :: y :: l)))
    with (str_int x ++ ", " ++ String.concat ", " (map str_int (y :: l)))%string.
  rewrite string_app_assoc. f_equal.
Qed.

Lemma printed_rest_separated (l : list Z) : separated (printed_rest l).
Proof. destruct l; simpl; [now right|now left]. Qed.

Lemma printed_injective (l1 : list Z) :
  forall l2,
    (String.concat ", " (map str_int l1) ++ "]")%string
    = (String.concat ", " (map str_int l2) ++ "]")%string ->
    l1 = l2.
Proof.
  induction l1 as [|x l1 IH]; intros [|y l2] E; try reflexivity.
  - rewrite printed_cons in E.
    change (String.concat ", " (map str_int []) ++ "]")%string
      with (EmptyString ++ printed_rest [])%string in E.
    apply separated_split in E as [E _];
      try apply printed_rest_separated; try apply str_int_separator_free;
      try exact I.
    symmetry in E. now apply str_int_nonempty in E.
  - rewrite printed_cons in E.
    change (String.concat ", " (map str_int []) ++ "]")%string
      with (EmptyString ++ printed_rest [])%string in E.
    apply separated_split in E as [E _];
      try apply printed_rest_separated; try apply str_int_separator_free;
      try exact I.
    now apply str_int_nonempty in E.
  - rewrite !printed_cons in E.
    apply separated_split in E as [Ex Er];
      try apply printed_rest_separated; try apply str_int_separator_free.
    apply str_int_injective in Ex. subst y. f_equal.
    destruct l1 as [|x1 l1], l2 as [|y1 l2]; try reflexivity;
      try discriminate.
    simpl printed_rest in Er. inversion Er as [Er']. now apply IH.
Qed.

(** X11: the hash identifies the cells: two boards with the same hash
    have element-wise identical cell arrays (of the same length), so a
    table keyed by the hash never confuses two positions. *)
Theorem hash_injective (b1 b2 : Board) :
  hash b1 = hash b2 -> board b1 = board b2.
Proof.
  unfold hash. intros E. inversion E as [E']. now apply printed_injective.
Qed.

Lemma hash_injective_witness :
  board (state_of (undo_move (state_of (move 40 33 initial_board))))
  = board initial_board.
Proof.
  apply hash_injective. vm_compute. reflexivity.
Defined.

(** ** [all_pieces] *)

Lemma indexed_pieces_sorted (cells : list Z) :
  forall k : nat,
    let pieces :=
      List.filter (fun pi : Z * Z => negb (fst pi =? 0))
                  (imap (fun i piece => (piece, Z.of_nat (k + i))) cells) in
    Sorted.StronglySorted Z.lt (map snd pieces) /\
    Forall (fun start => Z.of_nat k <= start) (map snd pieces).
Proof.
  induction cells as [|x cells IH]; intros k pieces.
  - split; constructor.
  - subst pieces. rewrite imap_cons.
    rewrite (imap_ext _ (fun i piece => (piece, Z.of_nat (S k + i)))); cycle 1.
    { intros i y _. simpl. f_equal. lia. }
    destruct (IH (S k)) as [Hs Hb].
    assert (Hb' : Forall (fun start => Z.of_nat k + 0 < start)
                    (map snd
                       (List.filter (fun pi : Z * Z => negb (fst pi =? 0))
                          (imap (fun i piece => (piece, Z.of_nat (S k + i)))
                                cells)))).
    { eapply Forall_impl; [exact Hb|]. simpl. intros; lia. }
    simpl List.filter. destruct (negb (x =? 0)); simpl.
    + split.
      * constructor; [assumption|].
        eapply Forall_impl; [exact Hb'|]. simpl. intros; lia.
      * constructor; [lia|].
        eapply Forall_impl; [exact Hb'|]. simpl. intros; lia.
    + split; [assumption|].
      eapply Forall_impl; [exact Hb'|]. simpl. intros; lia.
Qed.

(** X12: [all_pieces] lists exactly the non-empty cells, each paired
    with the piece it holds, by strictly increasing index; so every piece
    is listed once and an empty cell never. *)
Theorem all_pieces_lists_the_pieces (cells : list Z) :
  (forall piece start,
      In (piece, start) (all_pieces cells) <->
      exists i, start = Z.of_nat i /\ cells !! i = Some piece /\ piece <> 0) /\
  Sorted.StronglySorted Z.lt (map snd (all_pieces cells)).
Proof.
  split.
  - intros piece start. rewrite all_pieces_spec.
    split; intros (i & H); exists i; tauto.
  - apply (indexed_pieces_sorted cells 0).
Qed.

(** ** Material *)

Lemma fold_left_add_from (l : list Z) (a : Z) :
  fold_left Z.add l a = a + fold_left Z.add l 0.
Proof.
  revert a. induction l as [|x l IH]; intros a; cbn [fold_left]; [lia|].
  rewrite (IH (a + x)), (IH (0 + x)). lia.
Qed.

Lemma sum_cons (x : Z) (l : list Z) : sum (x :: l) = x + sum l.
Proof. unfold sum. cbn [fold_left]. apply (fold_left_add_from l (0 + x)). Qed.

Lemma sum_insert (l : list Z) :
  forall (k : nat) (x v : Z),
    l !! k = Some x -> sum (<[k:=v]> l) = sum l - x + v.
Proof.
  induction l as [|y l IH]; intros [|k] x v H; try discriminate.
  - inversion H; subst.
    change (<[0%nat:=v]> (x :: l)) with (v :: l). rewrite !sum_cons. lia.
  - change (<[S k:=v]> (y :: l)) with (y :: <[k:=v]> l).
    rewrite !sum_cons, (IH k x v H). lia.
Qed.

Lemma all_pieces_length_from (cells : list Z) :
  forall f : nat -> Z,
    length (List.filter (fun pi : Z * Z => negb (fst pi =? 0))
                        (imap (fun i piece => (piece, f i)) cells))
    = occupied cells.
Proof.
  unfold occupied. induction cells as [|x cells IH]; intros f; [reflexivity|].
  rewrite imap_cons. simpl.
  change ((fun i piece => (piece, f i)) ∘ S)
    with (fun i (piece : Z) => (piece, (f ∘ S) i)).
  destruct (negb (x =? 0)); simpl; now rewrite IH.
Qed.

Lemma all_pieces_length (cells : list Z) :
  length (all_pieces cells) = occupied cells.
Proof. apply (all_pieces_length_from cells Z.of_nat). Qed.

Lemma occupied_insert (l : list Z) :
  forall (k : nat) (x v : Z),
    l !! k = Some x ->
    Nat.add (occupied (<[k:=v]> l)) (if x =? 0 then 0%nat else 1%nat)
    = Nat.add (occupied l) (if v =? 0 then 0%nat else 1%nat).
Proof.
  unfold occupied.
  induction l as [|y l IH]; intros [|k] x v H; try discriminate; simpl in *.
  - inversion H; subst. destruct (x =? 0), (v =? 0); simpl; lia.
  - specialize (IH k x v H). destruct (y =? 0); simpl; lia.
Qed.

(** X13: a [move] that returns normally conserves the material: the sum
    of the cells and the number of pieces on the board are what they were.
    A [kill_piece] that returns normally takes exactly one piece off the
    board, and the sum of the cells drops by the value of that piece. *)
Theorem material_is_conserved :
  (forall b b' old_index new_index,
      move old_index new_index b = Done tt b' ->
      sum (board b') = sum (board b) /\
      length (all_pieces (board b')) = length (all_pieces (board b))) /\
  (forall b b' index p,
      kill_piece index b = Done tt b' ->
      getitem (board b) index = Some p ->
      sum (board b') = sum (board b) - p /\
      S (length (all_pieces (board b'))) = length (all_pieces (board b))).
Proof.
  split.
  - intros b b' o n H.
    apply move_Done_inv in H as (ko & kn & p & Hkn & Hko & Hn & Ho & Hp & ->).
    assert (ko <> kn) by congruence.
    assert (Hn' : <[ko:=0]> (board b) !! kn = Some 0)
      by now rewrite list_lookup_insert_ne.
    simpl. split.
    + rewrite (sum_insert _ kn 0 p Hn'), (sum_insert _ ko p 0 Ho). lia.
    + rewrite !all_pieces_length.
      pose proof (occupied_insert _ kn 0 p Hn') as E1.
      pose proof (occupied_insert _ ko p 0 Ho) as E2.
      apply Z.eqb_neq in Hp. rewrite Hp in E1, E2. simpl in E1, E2. lia.
  - intros b b' i p H Hg.
    apply kill_piece_Done_inv in H as (k & q & h & e & Hk & Hq & Hne & _ & ->).
    apply getitem_Some in Hg as (k' & Hk' & Hp).
    rewrite Hk in Hk'. inversion Hk'; subst k'.
    rewrite Hq in Hp. inversion Hp; subst q.
    simpl. split.
    + rewrite (sum_insert _ k p 0 Hq). lia.
    + rewrite !all_pieces_length.
      pose proof (occupied_insert _ k p 0 Hq) as E.
      apply Z.eqb_neq in Hne. rewrite Hne in E. simpl in E. lia.
Qed.

Lemma material_is_conserved_witness :
  (sum (board (state_of (move 40 33 initial_board))) = sum (board initial_board) /\
   length (all_pieces (board (state_of (move 40 33 initial_board))))
   = length (all_pieces (board initial_board))) /\
  (sum (board (state_of (kill_piece 1 reached_top_row)))
   = sum (board reached_top_row) - 1 /\
   S (length (all_pieces (board (state_of (kill_piece 1 reached_top_row)))))
   = length (all_pieces (board reached_top_row))).
Proof.
  destruct material_is_conserved as [Hm Hk]. split.
  - apply (Hm initial_board _ 40 33). reflexivity.
  - apply (Hk reached_top_row _ 1 1); reflexivity.
Defined.

(** ** Evaluating twice *)

Section Idempotence.

Variable generate_sliding_moves : Z -> Z -> list Z -> list Move.t.
Variable generate_attacking_moves : Z -> Z -> list Z -> list Move.t.

Abbreviation update := (update_state generate_sliding_moves generate_attacking_moves).
Abbreviation evaluate := (score generate_sliding_moves generate_attacking_moves).

Lemma update_state_fixed (b : Board) :
  state_of (update (state_of (update b))) = state_of (update b).
Proof.
  rewrite !update_state_run. simpl state_of.
  destruct (draws b) eqn:Hd.
  - change (draws (drawn b)) with (draws b). rewrite Hd. reflexivity.
  - destruct (finds_a_move generate_sliding_moves generate_attacking_moves
                (current_side b) (board b) (all_pieces (board b))) eqn:Hf.
    + now rewrite Hd, Hf.
    + change (draws (lost b)) with (draws b). rewrite Hd.
      change (current_side (lost b)) with (current_side b).
      change (board (lost b)) with (board b). rewrite Hf. reflexivity.
Qed.

(** X14: [update_state] and [score] are idempotent: a second
    [update_state] right after the first changes nothing, and a second
    [score] returns the same value as the first and leaves the object as
    the first left it. *)
Theorem evaluation_is_idempotent (b : Board) :
  update (state_of (update b)) = Done tt (state_of (update b)) /\
  evaluate (state_of (evaluate b)) = evaluate b.
Proof.
  assert (Hu : forall x, update x = Done tt (state_of (update x))).
  { intros x. now rewrite update_state_run. }
  split.
  - rewrite (Hu (state_of (update b))). now rewrite update_state_fixed.
  - rewrite (score_run _ _ b). simpl state_of.
    rewrite (score_run _ _ (state_of (update b))).
    now rewrite update_state_fixed.
Qed.

End Idempotence.

(** ** Crowning a king *)

Lemma piece_in_values (p : Z) (s : PieceTypes) :
  piece_in p s = true <->
  match s with
  | BLUE => p = 1 \/ p = 2
  | RED => p = -1 \/ p = -2
  end.
Proof.
  unfold piece_in. destruct s; simpl;
    rewrite !orb_true_iff, !Z.eqb_eq; intuition discriminate.
Qed.

(** X15: [make_king] does not look at the rank of the piece.  When it
    returns normally on a cell holding a piece [p] of side [s], the cell
    holds [2 * p] afterwards; that value still belongs to [s] exactly when
    [p] was a regular piece (1 or -1), and it never belongs to the
    opponent.  So crowning a king leaves a piece (4 or -4) that neither
    side owns. *)
Theorem crowning_and_ownership (b b' : Board) (index p : Z) (s : PieceTypes) :
  make_king index b = Done tt b' ->
  getitem (board b) index = Some p ->
  piece_in p s = true ->
  getitem (board b') index = Some (p * 2) /\
  (piece_in (p * 2) s = true <-> p = 1 \/ p = -1) /\
  piece_in (p * 2) (opponent_of s) = false.
Proof.
  intros H Hg Hp.
  apply make_king_Done_inv in H as (k & q & h & e & _ & Hk & Hq & _ & _ & ->).
  apply getitem_Some in Hg as (k' & Hk' & Hv).
  rewrite Hk in Hk'. inversion Hk'; subst k'.
  rewrite Hq in Hv. inversion Hv; subst q.
  assert (Hin : p = 1 \/ p = 2 \/ p = -1 \/ p = -2).
  { apply piece_in_values in Hp. destruct s; lia. }
  assert (Hw : wrap (p * 2) = p * 2).
  { apply wrap_in_range. unfold int_min, int_max, int_bits. lia. }
  split; [|split].
  - apply getitem_Some. exists k. simpl. rewrite length_insert.
    split; [assumption|]. rewrite Hw. apply list_lookup_insert_eq.
    now apply py_norm_lt in Hk.
  - rewrite piece_in_values. apply piece_in_values in Hp.
    destruct s; lia.
  - apply not_true_is_false. rewrite piece_in_values.
    apply piece_in_values in Hp. destruct s; simpl; lia.
Qed.

Lemma crowning_and_ownership_witness :
  let king := mkBoard (<[1%nat:=2]> (replicate 64 0)) RED
                      [MadeMove 8 1 [] true 0] true None 1 in
  getitem (board (state_of (make_king 1 king))) 1 = Some 4 /\
  piece_in 4 BLUE = false /\ piece_in 4 RED = false.
Proof.
  intros king.
  destruct (crowning_and_ownership king (state_of (make_king 1 king)) 1 2 BLUE)
    as (H1 & H2 & H3); try reflexivity.
  split; [exact H1|]. split; [|exact H3].
  apply not_true_is_false. intros H. apply H2 in H. lia.
Defined.

(** * Properties of the game *)

Lemma find_move_index_from_found (candidates : list Move.t) :
  forall (i j start end_ : Z),
    find_move_index_from i candidates start end_ = inl j <->
    exists (k : nat) (m : Move.t),
      j = i + Z.of_nat k /\
      candidates !! k = Some m /\
      Move.start m = start /\ Move.end_ m = end_ /\
      forall (k' : nat) (m' : Move.t),
        (k' < k)%nat -> candidates !! k' = Some m' ->
        ~ (Move.start m' = start /\ Move.end_ m' = end_).
Proof.
  induction candidates as [|c rest IH]; intros i j s e; simpl.
  - split; [discriminate|]. now intros (k & m & _ & H & _).
  - destruct ((Move.start c =? s) && (Move.end_ c =? e)) eqn:Hc.
    + apply andb_prop in Hc as [Hs He].
      apply Z.eqb_eq in Hs, He. split.
      * intros E. inversion E; subst j. exists 0%nat, c.
        split; [lia|]. split; [reflexivity|].
        split; [assumption|]. split; [assumption|].
        intros k' m' Hlt. lia.
      * intros (k & m & -> & Hk & Hms & Hme & Hfirst).
        destruct k as [|k]; [f_equal; lia|].
        exfalso. apply (Hfirst 0%nat c); [lia|reflexivity|now split].
    + assert (Hno : ~ (Move.start c = s /\ Move.end_ c = e)).
      { intros [Hs He]. apply Z.eqb_eq in Hs, He.
        rewrite Hs, He in Hc. discriminate. }
      rewrite IH. split.
      * intros (k & m & -> & Hk & Hms & Hme & Hfirst).
        exists (S k), m.
        split; [lia|]. split; [exact Hk|].
        split; [assumption|]. split; [assumption|].
        intros [|k'] m' Hlt Hm'; simpl in Hm'.
        -- now inversion Hm'; subst.
        -- apply (Hfirst k' m'); [lia|assumption].
      * intros (k & m & -> & Hk & Hms & Hme & Hfirst).
        destruct k as [|k]; simpl in Hk.
        { inversion Hk; subst. exfalso. now apply Hno. }
        exists k, m.
        split; [lia|]. split; [exact Hk|].
        split; [assumption|]. split; [assumption|].
        intros k' m' Hlt Hm'. apply (Hfirst (S k') m'); [lia|assumption].
Qed.

Lemma find_move_index_from_absent (candidates : list Move.t) :
  forall (i start end_ : Z) (err : MoveNotPresent),
    find_move_index_from i candidates start end_ = inr err <->
    err = move_not_present start end_ /\
    forall m, In m candidates ->
              ~ (Move.start m = start /\ Move.end_ m = end_).
Proof.
  induction candidates as [|c rest IH]; intros i s e err; simpl.
  - split.
    + intros E. inversion E. split; [reflexivity|]. now intros m [].
    + intros [-> _]. reflexivity.
  - destruct ((Move.start c =? s) && (Move.end_ c =? e)) eqn:Hc.
    + apply andb_prop in Hc as [Hs He]. apply Z.eqb_eq in Hs, He.
      split; [discriminate|]. intros [_ H]. exfalso.
      apply (H c); [now left|now split].
    + rewrite IH. split.
      * intros [-> H]. split; [reflexivity|]. intros m [<-|Hin].
        -- intros [Hs He]. apply Z.eqb_eq in Hs, He.
           rewrite Hs, He in Hc. discriminate.
        -- now apply H.
      * intros [-> H]. split; [reflexivity|]. intros m Hin. apply H. now right.
Qed.

(** X16: [find_move_index start end] returns the position of the first
    move of the list whose start and end are the ones asked for, and it
    raises exactly when the list holds no such move. *)
Theorem find_move_index_finds_first (g : Game) (start end_ : Z) :
  (forall i,
      find_move_index g start end_ = inl i <->
      exists (k : nat) (m : Move.t),
        i = Z.of_nat k /\
        moves g !! k = Some m /\
        Move.start m = start /\ Move.end_ m = end_ /\
        forall (k' : nat) (m' : Move.t),
          (k' < k)%nat -> moves g !! k' = Some m' ->
          ~ (Move.start m' = start /\ Move.end_ m' = end_)) /\
  (forall err,
      find_move_index g start end_ = inr err <->
      err = move_not_present start end_ /\
      forall m, In m (moves g) ->
                ~ (Move.start m = start /\ Move.end_ m = end_)).
Proof.
  unfold find_move_index. split.
  - intros i. rewrite find_move_index_from_found. now simpl.
  - intros err. apply find_move_index_from_absent.
Qed.

Lemma play_Done_history (m : Move.t) (b b' : Board) :
  play m b = Done tt b' ->
  exists entry,
    made_moves b' = made_moves b ++ [entry] /\
    old_position entry = Move.start m /\
    new_position entry = Move.end_ m /\
    made_king entry = Move.make_king m /\
    current_side b' = flip_side (current_side b).
Proof.
  intros Hplay. unfold play in Hplay.
  apply bind_Done_inv in Hplay as ([] & bm & Hmove & Hplay).
  apply bind_Done_inv in Hplay as ([] & bk & Hkills & Hking).
  apply move_Done_inv in Hmove as (ko & kn & p & _ & _ & _ & _ & _ & ->).
  set (e := MadeMove (Move.start m) (Move.end_ m) [] false
                     (moves_without_kills b)) in *.
  destruct (kills_run _ _ _ (made_moves b) e Hkills eq_refl)
    as (log & _ & Hm & Hs & _ & _).
  simpl in Hs.
  destruct (Move.make_king m) eqn:Hmk.
  - apply make_king_Done_inv in Hking
      as (k & v & h' & e' & _ & _ & _ & _ & Hh' & ->).
    rewrite Hm in Hh'. apply app_inj_tail in Hh' as [<- <-].
    exists (crowned (add_kills e log)). simpl. now repeat split.
  - inversion Hking; subst b'. exists (add_kills e log). now repeat split.
Qed.

(** X17: the index [find_move_index start end] returns is one
    [play_move] accepts: it addresses a move of the list from [start] to
    [end], and when [play_move] returns normally at that index the board
    has one more history entry, from [start] to [end], the side to move is
    flipped, and the list of moves is the one generated from the new
    board.  An index outside the list makes [play_move] raise and leaves
    the game as it was. *)
Theorem find_then_play (generate_moves : Board -> list Move.t)
        (g : Game) (start end_ : Z) :
  (forall i,
      find_move_index g start end_ = inl i ->
      exists m,
        getitem (moves g) i = Some m /\
        Move.start m = start /\ Move.end_ m = end_ /\
        forall g',
          play_move generate_moves i g = GameDone g' ->
          moves g' = generate_moves (game_board g') /\
          current_side (game_board g')
          = flip_side (current_side (game_board g)) /\
          exists entry,
            made_moves (game_board g')
            = made_moves (game_board g) ++ [entry] /\
            old_position entry = start /\ new_position entry = end_) /\
  (forall index,
      getitem (moves g) index = None ->
      play_move generate_moves index g = GameRaised ListIndexOutOfRange g).
Proof.
  split.
  - intros i Hfind. unfold find_move_index in Hfind.
    apply find_move_index_from_found in Hfind
      as (k & m & -> & Hk & Hs & He & _).
    assert (Hg : getitem (moves g) (0 + Z.of_nat k) = Some m).
    { apply getitem_Some. exists k. split; [|assumption].
      rewrite py_norm_nonneg; [f_equal; lia|].
      apply lookup_lt_Some in Hk. lia. }
    exists m. split; [assumption|]. split; [assumption|]. split; [assumption|].
    intros g' Hrun. unfold play_move in Hrun. rewrite Hg in Hrun.
    destruct (play m (game_board g)) as [[] b'|err b'] eqn:Hplay;
      [|discriminate].
    inversion Hrun; subst g'. simpl.
    apply play_Done_history in Hplay as (entry & Hm & Ho & Hn & _ & Hside).
    split; [reflexivity|]. split; [assumption|].
    exists entry. rewrite Ho, Hn, Hs, He. now split.
  - intros index Hnone. unfold play_move. now rewrite Hnone.
Qed.

Lemma find_then_play_witness :
  let g := mkGame initial_board
                  [Move.mk 40 33 [] false; Move.mk 42 33 [] false;
                   Move.mk 42 35 [] false] in
  find_move_index g 42 35 = inl 2 /\
  find_move_index g 40 35 = inr (move_not_present 40 35) /\
  exists g',
    play_move (fun _ => []) 2 g = GameDone g' /\
    made_moves (game_board g') = [MadeMove 42 35 [] false 0] /\
    current_side (game_board g') = RED.
Proof.
  intros g.
  destruct (find_then_play (fun _ => []) g 42 35) as [H _].
  destruct (H 2) as (m & Hg & Hs & He & Hplay); [reflexivity|].
  split; [reflexivity|]. split; [reflexivity|].
  eexists. split; [reflexivity|]. split; reflexivity.
Defined.

(** ** The end-game weight *)

Lemma no_of_pieces_nonneg (b : Board) : 0 <= no_of_pieces b.
Proof. unfold no_of_pieces. lia. Qed.

Lemma no_of_pieces_le_length (b : Board) :
  no_of_pieces b <= Z.of_nat (length (board b)).
Proof.
  unfold no_of_pieces. apply inj_le, List.filter_length_le.
Qed.

Lemma in_counts (n : Z) : 0 <= n <= 64 -> In n counts.
Proof.
  intros H. unfold counts. rewrite <- (Z2Nat.id n) by lia.
  apply in_map, in_seq. lia.
Qed.

(** A property checked on every count from 0 to 64 holds of each of them. *)
Lemma on_counts (check : Z -> bool) :
  forallb check counts = true -> forall n, 0 <= n <= 64 -> check n = true.
Proof.
  intros Hall n Hn. rewrite forallb_forall in Hall. now apply Hall, in_counts.
Qed.

(** X18: on a board of at most 64 cells, the end-game weight [score] uses
    lies between 0 and 1.  Over the counts such a board can have, the
    weight is the float 1.0 at a count of 0, it is positive below 12, it is
    the integer 0 from 12 on (there [n * (1 / 12)] is not below 1, and
    [min] returns its first argument, the integer 1), and it never grows
    when the count grows. *)
Theorem endgame_weight_bounds :
  (forall b,
      (length (board b) <= 64)%nat ->
      num_leb 0 (endgame_weight (no_of_pieces b)) = true /\
      num_leb (endgame_weight (no_of_pieces b)) 1 = true) /\
  endgame_weight 0 = PyFloat 1 /\
  (forall n, 0 <= n < 12 -> num_ltb 0 (endgame_weight n) = true) /\
  (forall n, 12 <= n <= 64 -> endgame_weight n = PyInt 0) /\
  (forall m n,
      0 <= m -> m <= n -> n <= 64 ->
      num_leb (endgame_weight n) (endgame_weight m) = true).
Proof.
  split; [|split; [|split; [|split]]].
  - intros b Hlen.
    pose proof (no_of_pieces_nonneg b) as H0.
    pose proof (no_of_pieces_le_length b) as H1.
    apply andb_prop.
    apply (on_counts (fun n => num_leb 0 (endgame_weight n)
                               && num_leb (endgame_weight n) 1));
      [vm_compute; reflexivity|lia].
  - vm_compute; reflexivity.
  - intros n Hn.
    assert (H : (if n <? 12 then num_ltb 0 (endgame_weight n) else true)
                = true).
    { apply (on_counts (fun n => if n <? 12
                                 then num_ltb 0 (endgame_weight n)
                                 else true));
        [vm_compute; reflexivity|lia]. }
    destruct (Z.ltb_spec n 12); [exact H|lia].
  - intros n Hn.
    assert (H : number_is_zero (endgame_weight n) = true).
    { assert (H : (if 12 <=? n then number_is_zero (endgame_weight n)
                   else true) = true).
      { apply (on_counts (fun n => if 12 <=? n
                                   then number_is_zero (endgame_weight n)
                                   else true));
          [vm_compute; reflexivity|lia]. }
      destruct (Z.leb_spec 12 n); [exact H|lia]. }
    destruct (endgame_weight n) as [z|f]; [|discriminate].
    simpl in H. apply Z.eqb_eq in H. now subst.
  - intros m n H0 Hmn Hn.
    assert (H : forallb (fun n => if m <=? n
                                  then num_leb (endgame_weight n)
                                               (endgame_weight m)
                                  else true) counts = true).
    { apply (on_counts
               (fun m => forallb (fun n => if m <=? n
                                           then num_leb (endgame_weight n)
                                                        (endgame_weight m)
                                           else true) counts));
        [vm_compute; reflexivity|lia]. }
    pose proof (on_counts _ H n ltac:(lia)) as H'. cbv beta in H'.
    destruct (Z.leb_spec m n); [exact H'|lia].
Qed.

Lemma endgame_weight_bounds_witness :
  num_leb 0 (endgame_weight (no_of_pieces outnumbered)) = true /\
  num_leb (endgame_weight (no_of_pieces outnumbered)) 1 = true /\
  num_ltb 0 (endgame_weight 11) = true /\
  endgame_weight (no_of_pieces initial_board) = PyInt 0 /\
  num_leb (endgame_weight 5) (endgame_weight 4) = true.
Proof.
  destruct endgame_weight_bounds as (Hb & _ & Hp & Hz & Hm).
  destruct (Hb outnumbered) as [H0 H1]; [vm_compute; lia|].
  split; [exact H0|]. split; [exact H1|].
  split; [apply Hp; lia|].
  split; [apply (Hz 12); lia|].
  apply Hm; lia.
Defined.

(** ** Draws come first *)

Section DrawFirst.

Variable generate_sliding_moves : Z -> Z -> list Z -> list Move.t.
Variable generate_attacking_moves : Z -> Z -> list Z -> list Move.t.

Abbreviation update := (update_state generate_sliding_moves generate_attacking_moves).
Abbreviation evaluate := (score generate_sliding_moves generate_attacking_moves).

(** X19: a draw is decided before mobility is looked at: when [is_draw]
    reports a draw, [update_state] ends the game with no winner and
    [score] returns 0, even if the side to move has no piece or no move
    left (which would otherwise be a loss and a score of [-inf]). *)
Theorem draw_takes_precedence (b : Board) :
  value_of (is_draw b) = Some true ->
  update b = Done tt (set_is_playing false (set_winner None b)) /\
  evaluate b = Done (Num 0) (set_is_playing false (set_winner None b)).
Proof.
  intros Hd. rewrite is_draw_run in Hd. simpl in Hd.
  assert (Hdraws : draws b = true) by congruence.
  assert (Hu : update b = Done tt (drawn b)).
  { now rewrite update_state_run, Hdraws. }
  split; [exact Hu|].
  rewrite score_run, Hu. reflexivity.
Qed.

End DrawFirst.

Lemma draw_takes_precedence_witness :
  let b := mkBoard (replicate 64 0) RED [] true None 40 in
  update_state one_step no_moves b
  = Done tt (mkBoard (replicate 64 0) RED [] false None 40) /\
  score one_step no_moves b
  = Done (Num 0) (mkBoard (replicate 64 0) RED [] false None 40).
Proof.
  intros b. apply (draw_takes_precedence one_step no_moves b). reflexivity.
Defined.
